(** * The MCP image-analysis client ([src/app.py], class [MCPImageAnalyzer])

    A shallow embedding of the client class and of the part of the Python
    runtime it relies on, followed by the properties of its five methods.

    - Python objects the client handles are values of [pyvalue].
    - A method is a computation in the monad [M]: it threads the heap (the
      client object and the log of requests sent to the remote service) and
      either returns or raises.  A raise keeps the heap, as in Python.
    - The remote service is a [remote]: what [Client(url)] and
      [client.predict(...)] answer, given the requests made so far.
    - [json.loads] and the formatting of non-string objects in f-strings are
      parameters of the methods.  [Json.loads] is a decoder written after the
      pure-Python [json.decoder] / [json.scanner] modules of CPython; it is
      used where a statement needs the decoding of a concrete document. *)

From Stdlib Require Import String Ascii List ZArith Bool Arith Lia DecimalString.
Import ListNotations.
Open Scope string_scope.
Set Warnings "-register-all".

(** ** Python values and exceptions *)

(** The values a capability can answer and [json.loads] can build.  A dict is
    the list of its items in insertion order, keys being strings.  A float is
    kept as the text of its literal: floating-point arithmetic is not
    modelled and no method computes with the numbers. *)
Inductive pyvalue : Type :=
| PNone
| PBool (b : bool)
| PInt (n : Z)
| PFloat (literal : string)
| PStr (s : string)
| PList (items : list pyvalue)
| PDict (items : list (string * pyvalue)).

(** [isinstance(v, str)] and [isinstance(v, dict)]. *)
Definition isinstance_str (v : pyvalue) : bool :=
  match v with PStr _ => true | _ => false end.

Definition isinstance_dict (v : pyvalue) : bool :=
  match v with PDict _ => true | _ => false end.

(** A raised exception, with the text [str(e)] gives.  [except Exception]
    catches the instances of [Exception] only; [KeyboardInterrupt],
    [SystemExit] and the like derive from [BaseException] alone. *)
Inductive exn : Type :=
| Exception (msg : string)
| BaseException (msg : string).

Definition str_exn (e : exn) : string :=
  match e with Exception m => m | BaseException m => m end.

Inductive outcome (A : Type) : Type :=
| Returned (a : A)
| Raised (e : exn).
Arguments Returned {A} a.
Arguments Raised {A} e.

(** ** Strings *)

Fixpoint mem_char (c : ascii) (chars : string) : bool :=
  match chars with
  | EmptyString => false
  | String d chars' => Ascii.eqb c d || mem_char c chars'
  end.

(** [s.rstrip(chars)]: drop the longest suffix made of characters of
    [chars]. *)
Fixpoint rstrip (chars s : string) : string :=
  match s with
  | EmptyString => EmptyString
  | String c s' =>
      match rstrip chars s' with
      | EmptyString => if mem_char c chars then EmptyString else String c EmptyString
      | r => String c r
      end
  end.

(** [needle in hay]. *)
Definition contains (needle hay : string) : Prop :=
  exists pre post, hay = pre ++ needle ++ post.

(** ** [json.loads]

    The decoder of the standard library, after the pure-Python modules
    [json/decoder.py] and [json/scanner.py] of CPython 3.13 with the default
    hooks ([strict=True], [parse_int=int], no object hook).

    The Python code walks the document [s] with an index [end]; here the
    functions walk the suffix [s[end:]], and an error carries the suffix at
    which Python reports it, from which [errmsg] computes line, column and
    offset.  Skipping white space is written [skip_ws] throughout, the
    decoder's one-character look-aheads being shortcuts for it.
    Strings are byte strings: a document is taken in UTF-8, an offset counts
    bytes, and [\uXXXX] decodes to the UTF-8 bytes of the code point.  The
    interpreter's recursion limit is not modelled. *)
Module Json.

Inductive scan (A : Type) : Type :=
| Scanned (v : A) (rest : string)
| StopIteration (where_ : string)
| JSONDecodeError (msg : string) (where_ : string)
| ValueError (msg : string)
| OutOfFuel.
Arguments Scanned {A} v rest.
Arguments StopIteration {A} where_.
Arguments JSONDecodeError {A} msg where_.
Arguments ValueError {A} msg.
Arguments OutOfFuel {A}.

Definition and_then {A B} (r : scan A) (k : A -> string -> scan B) : scan B :=
  match r with
  | Scanned v rest => k v rest
  | StopIteration w => StopIteration w
  | JSONDecodeError m w => JSONDecodeError m w
  | ValueError m => ValueError m
  | OutOfFuel => OutOfFuel
  end.

(** [try: ... except StopIteration as err: raise JSONDecodeError("Expecting
    value", s, err.value)]. *)
Definition expecting_value {A} (r : scan A) : scan A :=
  match r with
  | StopIteration w => JSONDecodeError "Expecting value" w
  | _ => r
  end.

(** [r] is not [OutOfFuel] and, if it scanned a value, stopped in a proper
    suffix of [s]. *)
Definition progress {A} (s : string) (r : scan A) : Prop :=
  match r with
  | Scanned _ rest => String.length rest < String.length s
  | OutOfFuel => False
  | _ => True
  end.

(** *** Characters *)

Definition TAB : ascii := "009".
Definition LF : ascii := "010".
Definition CR : ascii := "013".
Definition QUOTE : ascii := "034".
Definition BSLASH : ascii := "\".

Definition is_ws (c : ascii) : bool :=
  Ascii.eqb c " " || Ascii.eqb c TAB || Ascii.eqb c LF || Ascii.eqb c CR.

Definition is_digit (c : ascii) : bool :=
  Ascii.leb "0" c && Ascii.leb c "9".

Definition hex_value (c : ascii) : option N :=
  let n := N_of_ascii c in
  if is_digit c then Some (n - 48)%N
  else if Ascii.leb "a" c && Ascii.leb c "f" then Some (n - 87)%N
  else if Ascii.leb "A" c && Ascii.leb c "F" then Some (n - 55)%N
  else None.

Definition hex_digit (n : N) : ascii :=
  if (n <? 10)%N then ascii_of_N (48 + n)%N else ascii_of_N (87 + n)%N.

(** [int(h1 h2 h3 h4, 16)] when the four characters match
    [[0-9A-Fa-f]{4}]. *)
Definition hex4 (h1 h2 h3 h4 : ascii) : option N :=
  match hex_value h1, hex_value h2, hex_value h3, hex_value h4 with
  | Some a, Some b, Some c, Some d => Some (((a * 16 + b) * 16 + c) * 16 + d)%N
  | _, _, _, _ => None
  end.

(** [chr(uni)], in UTF-8. *)
Definition chr (uni : N) : string :=
  let byte (n : N) := ascii_of_N n in
  let cont (n : N) := byte (128 + N.land n 63)%N in
  if (uni <? 128)%N then String (byte uni) ""
  else if (uni <? 2048)%N then
    String (byte (192 + N.shiftr uni 6)%N) (String (cont uni) "")
  else if (uni <? 65536)%N then
    String (byte (224 + N.shiftr uni 12)%N)
      (String (cont (N.shiftr uni 6)) (String (cont uni) ""))
  else
    String (byte (240 + N.shiftr uni 18)%N)
      (String (cont (N.shiftr uni 12))
         (String (cont (N.shiftr uni 6)) (String (cont uni) ""))).

(** [repr(c)] of a one-character string. *)
Definition repr_char (c : ascii) : string :=
  let n := N_of_ascii c in
  if Ascii.eqb c "'" then String QUOTE (String c (String QUOTE ""))
  else
    let body :=
      if Ascii.eqb c BSLASH then "\\"
      else if Ascii.eqb c TAB then "\t"
      else if Ascii.eqb c LF then "\n"
      else if Ascii.eqb c CR then "\r"
      else if (n <? 32)%N || (n =? 127)%N then
        "\x" ++ String (hex_digit (n / 16)%N) (String (hex_digit (n mod 16)%N) "")
      else String c ""
    in "'" ++ body ++ "'".

(** The table [BACKSLASH] of one-letter escapes. *)
Definition BACKSLASH (esc : ascii) : option ascii :=
  if Ascii.eqb esc QUOTE then Some QUOTE
  else if Ascii.eqb esc BSLASH then Some BSLASH
  else if Ascii.eqb esc "/" then Some "/"%char
  else if Ascii.eqb esc "b" then Some "008"%char
  else if Ascii.eqb esc "f" then Some "012"%char
  else if Ascii.eqb esc "n" then Some LF
  else if Ascii.eqb esc "r" then Some CR
  else if Ascii.eqb esc "t" then Some TAB
  else None.

(** [WHITESPACE.match(s, end).end()]. *)
Fixpoint skip_ws (s : string) : string :=
  match s with
  | String c s' => if is_ws c then skip_ws s' else s
  | EmptyString => EmptyString
  end.

(** *** [py_scanstring] *)

(** [s] follows the opening quote, [begin] is the suffix at that quote and
    [chunks] what has been decoded so far. *)
Fixpoint scanstring (begin s chunks : string) : scan string :=
  match s with
  | EmptyString => JSONDecodeError "Unterminated string starting at" begin
  | String c s1 =>
      if Ascii.eqb c QUOTE then Scanned chunks s1
      else if Ascii.eqb c BSLASH then
        match s1 with
        | EmptyString => JSONDecodeError "Unterminated string starting at" begin
        | String esc s2 =>
            if negb (Ascii.eqb esc "u") then
              match BACKSLASH esc with
              | None => JSONDecodeError ("Invalid \escape: " ++ repr_char esc) s1
              | Some char => scanstring begin s2 (chunks ++ String char "")
              end
            else
              match s2 with
              | String h1 (String h2 (String h3 (String h4 s3))) =>
                  match hex4 h1 h2 h3 h4 with
                  | None => JSONDecodeError "Invalid \uXXXX escape" s1
                  | Some uni =>
                      if (55296 <=? uni)%N && (uni <=? 56319)%N then
                        match s3 with
                        | String b (String u s4) =>
                            if Ascii.eqb b BSLASH && Ascii.eqb u "u" then
                              match s4 with
                              | String g1 (String g2 (String g3 (String g4 s5))) =>
                                  match hex4 g1 g2 g3 g4 with
                                  | None =>
                                      JSONDecodeError "Invalid \uXXXX escape" (String u s4)
                                  | Some uni2 =>
                                      if (56320 <=? uni2)%N && (uni2 <=? 57343)%N then
                                        let uni' :=
                                          (65536 + N.lor (N.shiftl (uni - 55296) 10)
                                                     (uni2 - 56320))%N in
                                        scanstring begin s5 (chunks ++ chr uni')
                                      else scanstring begin s3 (chunks ++ chr uni)
                                  end
                              | _ => JSONDecodeError "Invalid \uXXXX escape" (String u s4)
                              end
                            else scanstring begin s3 (chunks ++ chr uni)
                        | _ => scanstring begin s3 (chunks ++ chr uni)
                        end
                      else scanstring begin s3 (chunks ++ chr uni)
                  end
              | _ => JSONDecodeError "Invalid \uXXXX escape" s1
              end
        end
      else if (N_of_ascii c <? 32)%N then
        JSONDecodeError ("Invalid control character " ++ repr_char c ++ " at") s1
      else scanstring begin s1 (chunks ++ String c "")
  end.

(** *** Numbers *)

Fixpoint span_digits (s : string) : string * string :=
  match s with
  | String c s' =>
      if is_digit c then let (ds, rest) := span_digits s' in (String c ds, rest)
      else (EmptyString, s)
  | EmptyString => (EmptyString, EmptyString)
  end.

(** [NUMBER_RE.match(s, idx)]: an optional minus sign, then 0 or a digit
    1-9 followed by digits (group 1); optionally a dot and one or more
    digits (group 2); optionally e or E, an optional sign and one or more
    digits (group 3).  The result is the three groups, an absent one being
    the empty string, and what follows the match. *)
Definition match_number (s : string) : option (string * string * string * string) :=
  let (sign, s0) :=
    match s with
    | String c s' => if Ascii.eqb c "-" then ("-", s') else ("", s)
    | EmptyString => ("", s)
    end in
  let integer :=
    match s0 with
    | String c s1 =>
        if Ascii.eqb c "0" then Some (sign ++ "0", s1)
        else if is_digit c then
          let (ds, s2) := span_digits s1 in Some (sign ++ String c ds, s2)
        else None
    | EmptyString => None
    end in
  match integer with
  | None => None
  | Some (int, s1) =>
      let (frac, s2) :=
        match s1 with
        | String c s' =>
            if Ascii.eqb c "." then
              match span_digits s' with
              | (EmptyString, _) => ("", s1)
              | (ds, rest) => (String c ds, rest)
              end
            else ("", s1)
        | EmptyString => ("", s1)
        end in
      let (exp, s3) :=
        match s2 with
        | String e s' =>
            if Ascii.eqb e "e" || Ascii.eqb e "E" then
              let (sg, s'') :=
                match s' with
                | String c t =>
                    if Ascii.eqb c "-" || Ascii.eqb c "+" then (String c "", t)
                    else ("", s')
                | EmptyString => ("", s')
                end in
              match span_digits s'' with
              | (EmptyString, _) => ("", s2)
              | (ds, rest) => (String e (sg ++ ds), rest)
              end
            else ("", s2)
        | EmptyString => ("", s2)
        end in
      Some (int, frac, exp, s3)
  end.

Fixpoint digits_value (acc : Z) (ds : string) : Z :=
  match ds with
  | String c ds' => digits_value (10 * acc + Z.of_N (N_of_ascii c - 48)) ds'
  | EmptyString => acc
  end.

Definition string_of_nat (n : nat) : string :=
  NilEmpty.string_of_uint (Nat.to_uint n).

(** [int(integer)]: [integer] is group 1 of [match_number].  The conversion
    refuses more than 4300 digits ([sys.get_int_max_str_digits()]). *)
Definition parse_int (integer : string) : string + Z :=
  let (neg, ds) :=
    match integer with
    | String c ds' => if Ascii.eqb c "-" then (true, ds') else (false, integer)
    | EmptyString => (false, integer)
    end in
  if Nat.ltb 4300 (String.length ds) then
    inl ("Exceeds the limit (4300 digits) for integer string conversion: value has "
           ++ string_of_nat (String.length ds)
           ++ " digits; use sys.set_int_max_str_digits() to increase the limit")
  else
    let v := digits_value 0 ds in inr (if neg then (- v)%Z else v).

(** *** Arrays and objects *)

(** [d[key] = value]: a key already present keeps its place. *)
Fixpoint dict_setitem (d : list (string * pyvalue)) (key : string) (value : pyvalue)
  : list (string * pyvalue) :=
  match d with
  | [] => [(key, value)]
  | (k, v) :: d' =>
      if String.eqb k key then (k, value) :: d' else (k, v) :: dict_setitem d' key value
  end.

(** [dict(pairs)]. *)
Definition dict (pairs : list (string * pyvalue)) : list (string * pyvalue) :=
  fold_left (fun d kv => dict_setitem d (fst kv) (snd kv)) pairs [].

Definition scanner : Type := string -> scan pyvalue.

(** The loop of [JSONArray]; [s] is where the next element is expected. *)
Fixpoint array_loop (scan_once : scanner) (n : nat) (s : string)
    (values : list pyvalue) : scan pyvalue :=
  match n with
  | O => OutOfFuel
  | S n' =>
      and_then (expecting_value (scan_once s)) (fun value s1 =>
        let values := (values ++ [value])%list in
        let s2 := skip_ws s1 in
        match s2 with
        | String nextchar s3 =>
            if Ascii.eqb nextchar "]" then Scanned (PList values) s3
            else if negb (Ascii.eqb nextchar ",") then
              JSONDecodeError "Expecting ',' delimiter" s2
            else
              let s4 := skip_ws s3 in
              match s4 with
              | String c _ =>
                  if Ascii.eqb c "]" then
                    JSONDecodeError "Illegal trailing comma before end of array" s2
                  else array_loop scan_once n' s4 values
              | EmptyString => array_loop scan_once n' s4 values
              end
        | EmptyString => JSONDecodeError "Expecting ',' delimiter" s2
        end)
  end.

(** [JSONArray((s, end), scan_once)], [s] following the bracket. *)
Definition JSONArray (scan_once : scanner) (n : nat) (s : string) : scan pyvalue :=
  let s1 := skip_ws s in
  match s1 with
  | String c s2 => if Ascii.eqb c "]" then Scanned (PList []) s2 else array_loop scan_once n s1 []
  | EmptyString => array_loop scan_once n s1 []
  end.

(** [s[end:end + 1] == c], and the suffix after it. *)
Definition after_char (c : ascii) (s : string) : option string :=
  match s with
  | String d s' => if Ascii.eqb d c then Some s' else None
  | EmptyString => None
  end.

(** The loop of [JSONObject]; [s] follows the opening quote of the next
    key, which is at [begin]. *)
Fixpoint object_loop (scan_once : scanner) (n : nat) (begin s : string)
    (pairs : list (string * pyvalue)) : scan pyvalue :=
  match n with
  | O => OutOfFuel
  | S n' =>
      and_then (scanstring begin s "") (fun key s1 =>
        let s2 := skip_ws s1 in
        match after_char ":" s2 with
        | Some s3 =>
            and_then (expecting_value (scan_once (skip_ws s3))) (fun value s4 =>
              let pairs := (pairs ++ [(key, value)])%list in
              let s5 := skip_ws s4 in
              match s5 with
              | String nextchar s6 =>
                  if Ascii.eqb nextchar "}" then Scanned (PDict (dict pairs)) s6
                  else if negb (Ascii.eqb nextchar ",") then
                    JSONDecodeError "Expecting ',' delimiter" s5
                  else
                    let s7 := skip_ws s6 in
                    match s7 with
                    | String c s8 =>
                        if Ascii.eqb c QUOTE then object_loop scan_once n' s7 s8 pairs
                        else if Ascii.eqb c "}" then
                          JSONDecodeError "Illegal trailing comma before end of object" s5
                        else
                          JSONDecodeError
                            "Expecting property name enclosed in double quotes" s7
                    | EmptyString =>
                        JSONDecodeError
                          "Expecting property name enclosed in double quotes" s7
                    end
              | EmptyString => JSONDecodeError "Expecting ',' delimiter" s5
              end)
        | None => JSONDecodeError "Expecting ':' delimiter" s2
        end)
  end.

(** [JSONObject((s, end), strict, scan_once, ...)], [s] following the
    brace. *)
Definition JSONObject (scan_once : scanner) (n : nat) (s : string) : scan pyvalue :=
  let s1 := skip_ws s in
  match s1 with
  | String c s2 =>
      if Ascii.eqb c "}" then Scanned (PDict []) s2
      else if Ascii.eqb c QUOTE then object_loop scan_once n s1 s2 []
      else JSONDecodeError "Expecting property name enclosed in double quotes" s1
  | EmptyString => JSONDecodeError "Expecting property name enclosed in double quotes" s1
  end.

(** *** The scanner *)

(** [s[idx:idx + len(word)] == word], and the suffix after the word. *)
Fixpoint startswith (word s : string) : option string :=
  match word, s with
  | EmptyString, _ => Some s
  | String a word', String b s' => if Ascii.eqb a b then startswith word' s' else None
  | String _ _, EmptyString => None
  end.

Definition scan_number (s : string) : scan pyvalue :=
  match match_number s with
  | Some (integer, frac, exp, rest) =>
      if negb (String.eqb frac "") || negb (String.eqb exp "") then
        Scanned (PFloat (integer ++ frac ++ exp)) rest
      else
        match parse_int integer with
        | inl msg => ValueError msg
        | inr n => Scanned (PInt n) rest
        end
  | None =>
      match startswith "NaN" s, startswith "Infinity" s, startswith "-Infinity" s with
      | Some rest, _, _ => Scanned (PFloat "NaN") rest
      | None, Some rest, _ => Scanned (PFloat "Infinity") rest
      | None, None, Some rest => Scanned (PFloat "-Infinity") rest
      | None, None, None => StopIteration s
      end
  end.

(** [_scan_once(string, idx)].  [fuel] bounds the nesting and the number of
    elements of one container; [S (length s)] is enough
    ([scan_once_fuel]). *)
Fixpoint scan_once (fuel : nat) (s : string) : scan pyvalue :=
  match fuel with
  | O => OutOfFuel
  | S fuel' =>
      match s with
      | EmptyString => StopIteration s
      | String nextchar s1 =>
          if Ascii.eqb nextchar QUOTE then
            and_then (scanstring s s1 "") (fun str rest => Scanned (PStr str) rest)
          else if Ascii.eqb nextchar "{" then JSONObject (scan_once fuel') fuel' s1
          else if Ascii.eqb nextchar "[" then JSONArray (scan_once fuel') fuel' s1
          else
            match startswith "null" s, startswith "true" s, startswith "false" s with
            | Some rest, _, _ => Scanned PNone rest
            | None, Some rest, _ => Scanned (PBool true) rest
            | None, None, Some rest => Scanned (PBool false) rest
            | None, None, None => scan_number s
            end
      end
  end.

(** *** [JSONDecodeError] and [loads] *)

Fixpoint count_char (c : ascii) (s : string) : nat :=
  match s with
  | String d s' => (if Ascii.eqb c d then 1 else 0) + count_char c s'
  | EmptyString => 0
  end.

(** The characters of [s] after its last [c], all of [s] without one. *)
Fixpoint after_last (c : ascii) (s : string) : string :=
  match s with
  | String d s' => if Nat.ltb 0 (count_char c s) then after_last c s' else s
  | EmptyString => EmptyString
  end.

(** [str(JSONDecodeError(msg, doc, pos))], [pos] being where the suffix
    [where_] of [doc] starts. *)
Definition errmsg (msg doc where_ : string) : string :=
  let pos := String.length doc - String.length where_ in
  let before := substring 0 pos doc in
  let lineno := count_char LF before + 1 in
  let colno := String.length (after_last LF before) + 1 in
  msg ++ ": line " ++ string_of_nat lineno ++ " column " ++ string_of_nat colno
      ++ " (char " ++ string_of_nat pos ++ ")".

(** [JSONDecoder.decode(s)]. *)
Definition decode (s : string) : scan pyvalue :=
  and_then (expecting_value (scan_once (S (String.length s)) (skip_ws s)))
    (fun obj rest =>
       match skip_ws rest with
       | EmptyString => Scanned obj EmptyString
       | rest' => JSONDecodeError "Extra data" rest'
       end).

Definition BOM : string := String "239" (String "187" (String "191" "")).

(** [json.loads(s)] for a [str]. *)
Definition loads (s : string) : exn + pyvalue :=
  match startswith BOM s with
  | Some _ =>
      inl (Exception (errmsg "Unexpected UTF-8 BOM (decode using utf-8-sig)" s s))
  | None =>
      match decode s with
      | Scanned obj _ => inr obj
      | JSONDecodeError msg w => inl (Exception (errmsg msg s w))
      | StopIteration w => inl (Exception (errmsg "Expecting value" s w))
      | ValueError msg => inl (Exception msg)
      | OutOfFuel => inl (Exception "maximum recursion depth exceeded")
      end
  end.
End Json.

(** ** The client object, the remote service and the heap *)

Record MCPImageAnalyzer (handle : Type) : Type := mkAnalyzer {
  space_url : string;
  client : option handle;
  connection_status : string
}.
Arguments mkAnalyzer {handle} _ _ _.
Arguments space_url {handle} _.
Arguments client {handle} _.
Arguments connection_status {handle} _.

(** The three values [connection_status] takes, as the states of the
    specification. *)
Inductive ConnectionState : Type := Disconnected | Connected | Failed.

Definition ConnectionState_of (status : string) : option ConnectionState :=
  if status =? "Disconnected" then Some Disconnected
  else if status =? "Connected ✅" then Some Connected
  else if status =? "Connection Failed ❌" then Some Failed
  else None.

(** What goes out to the remote endpoint. *)
Inductive request (handle image : Type) : Type :=
| ReqClient (url : string)
| ReqPredict (h : handle) (img : image) (api_name : string).
Arguments ReqClient {handle image} url.
Arguments ReqPredict {handle image} h img api_name.

(** The remote endpoint seen through [gradio_client]: the answer to a request
    may depend on the requests made before it. *)
Record remote (handle image : Type) : Type := mkRemote {
  Client_new : list (request handle image) -> string -> exn + handle;
  Client_predict :
    list (request handle image) -> handle -> image -> string -> exn + pyvalue
}.
Arguments mkRemote {handle image} _ _.
Arguments Client_new {handle image} _ _ _.
Arguments Client_predict {handle image} _ _ _ _ _.

Record heap (handle image : Type) : Type := mkHeap {
  self : MCPImageAnalyzer handle;
  calls : list (request handle image)
}.
Arguments mkHeap {handle image} _ _.
Arguments self {handle image} _.
Arguments calls {handle image} _.

(** ** The monad of methods *)

Definition M (handle image A : Type) : Type :=
  heap handle image -> outcome A * heap handle image.

Section Monad.
Context {handle image : Type}.
Let M := M handle image.

Definition ret {A} (a : A) : M A := fun hp => (Returned a, hp).

Definition raise {A} (e : exn) : M A := fun hp => (Raised e, hp).

Definition bind {A B} (m : M A) (k : A -> M B) : M B :=
  fun hp =>
    match m hp with
    | (Returned a, hp') => k a hp'
    | (Raised e, hp') => (Raised e, hp')
    end.

(** [try: body / except Exception as e: handler e]. *)
Definition try_except {A} (body : M A) (handler : exn -> M A) : M A :=
  fun hp =>
    match body hp with
    | (Raised (Exception m), hp') => handler (Exception m) hp'
    | r => r
    end.

Definition lift {A} (r : exn + A) : M A :=
  match r with inl e => raise e | inr a => ret a end.

(** Attribute reads and writes on [self]. *)
Definition get_space_url : M string := fun hp => (Returned (space_url (self hp)), hp).

Definition get_client : M (option handle) := fun hp => (Returned (client (self hp)), hp).

Definition set_client (h : handle) : M unit :=
  fun hp =>
    let s := self hp in
    (Returned tt, mkHeap (mkAnalyzer (space_url s) (Some h) (connection_status s)) (calls hp)).

Definition set_connection_status (status : string) : M unit :=
  fun hp =>
    let s := self hp in
    (Returned tt, mkHeap (mkAnalyzer (space_url s) (client s) status) (calls hp)).

(** The two calls into [gradio_client]; each is recorded, then answered by
    the remote. *)
Definition new_Client (R : remote handle image) (url : string) : M handle :=
  fun hp =>
    let hp' := mkHeap (self hp) (calls hp ++ [ReqClient url]) in
    lift (Client_new R (calls hp) url) hp'.

Definition predict (R : remote handle image) (h : handle) (img : image)
    (api_name : string) : M pyvalue :=
  fun hp =>
    let hp' := mkHeap (self hp) (calls hp ++ [ReqPredict h img api_name]) in
    lift (Client_predict R (calls hp) h img api_name) hp'.
End Monad.

Declare Scope py_scope.
Delimit Scope py_scope with py.
Notation "x <- m ;; k" := (bind m (fun x => k))
  (at level 61, m at next level, right associativity) : py_scope.
Notation "m ;;; k" := (bind m (fun _ => k))
  (at level 61, right associativity) : py_scope.

(** ** The class [MCPImageAnalyzer] *)

(** [__init__(self, space_url)]. *)
Definition __init__ {handle : Type} (url : string) : MCPImageAnalyzer handle :=
  mkAnalyzer (rstrip "/" url) None "Disconnected".

Section Methods.
Context {handle image : Type}.
Variable json_loads : string -> exn + pyvalue.
Variable format_object : pyvalue -> string.
Variable R : remote handle image.
Local Open Scope py_scope.
Let M := M handle image.

(** A replacement field [{v}] of an f-string: a [str] goes in as it is,
    any other object through its [__format__]. *)
Definition fmt (v : pyvalue) : string :=
  match v with PStr s => s | _ => format_object v end.

Definition connect : M (string * string) :=
  try_except
    (url <- get_space_url ;;
     h <- new_Client R url ;;
     set_client h ;;;
     set_connection_status "Connected ✅" ;;;
     url <- get_space_url ;;
     ret ("✅ Successfully connected to " ++ url, "success"))
    (fun e =>
       set_connection_status "Connection Failed ❌" ;;;
       url <- get_space_url ;;
       ret ("❌ Failed to connect to " ++ url ++ ": " ++ str_exn e, "error")).

(** In the four operations [not self.client] is the test for [None]: a
    [Client] object defines neither [__bool__] nor [__len__] and is true. *)
Definition analyze_image (img : option image) : M pyvalue :=
  c <- get_client ;;
  match c with
  | None => ret (PDict [("error", PStr "Not connected to MCP server. Please connect first.")])
  | Some h =>
      match img with
      | None => ret (PDict [("error", PStr "No image provided")])
      | Some i =>
          try_except
            (result <- predict R h i "/analyze_image" ;;
             match result with
             | PStr s => lift (json_loads s)
             | _ => ret result
             end)
            (fun e => ret (PDict [("error", PStr ("Analysis failed: " ++ str_exn e))]))
      end
  end.

Definition get_orientation (img : option image) : M string :=
  c <- get_client ;;
  match c with
  | None => ret "❌ Not connected to MCP server"
  | Some h =>
      match img with
      | None => ret "❌ No image provided"
      | Some i =>
          try_except
            (result <- predict R h i "/get_image_orientation" ;;
             ret ("📐 Orientation: " ++ fmt result))
            (fun e => ret ("❌ Error: " ++ str_exn e))
      end
  end.

Definition analyze_colors (img : option image) : M string :=
  c <- get_client ;;
  match c with
  | None => ret "❌ Not connected to MCP server"
  | Some h =>
      match img with
      | None => ret "❌ No image provided"
      | Some i =>
          try_except
            (result <- predict R h i "/count_colors" ;;
             ret ("🎨 Color Analysis:" ++ String "010" (fmt result)))
            (fun e => ret ("❌ Error: " ++ str_exn e))
      end
  end.

Definition extract_text_info (img : option image) : M pyvalue :=
  c <- get_client ;;
  match c with
  | None => ret (PDict [("error", PStr "Not connected to MCP server")])
  | Some h =>
      match img with
      | None => ret (PDict [("error", PStr "No image provided")])
      | Some i =>
          try_except
            (result <- predict R h i "/extract_text_info" ;;
             match result with
             | PStr s => lift (json_loads s)
             | _ => ret result
             end)
            (fun e => ret (PDict [("error", PStr ("Text analysis failed: " ++ str_exn e))]))
      end
  end.
End Methods.

(** ** Runs of a client *)

(** The public methods, with their argument. *)
Inductive method (image : Type) : Type :=
| Connect
| AnalyzeImage (img : option image)
| GetOrientation (img : option image)
| AnalyzeColors (img : option image)
| ExtractTextInfo (img : option image).
Arguments Connect {image}.
Arguments AnalyzeImage {image} img.
Arguments GetOrientation {image} img.
Arguments AnalyzeColors {image} img.
Arguments ExtractTextInfo {image} img.

(** The four analysis operations. *)
Definition is_analysis {image : Type} (m : method image) : bool :=
  match m with Connect => false | _ => true end.

(** What a caller sees of a call: a text, a pair of texts, or an object. *)
Inductive answer : Type :=
| Text (s : string)
| Texts (s t : string)
| Object (v : pyvalue).

Definition map_outcome {A B} (f : A -> B) (r : outcome A) : outcome B :=
  match r with Returned a => Returned (f a) | Raised e => Raised e end.

Section Runs.
Context {handle image : Type}.
Variable json_loads : string -> exn + pyvalue.
Variable format_object : pyvalue -> string.
Variable R : remote handle image.

Definition invoke (m : method image) : M handle image answer :=
  fun hp =>
    match m with
    | Connect =>
        let (r, hp') := connect R hp in (map_outcome (fun p => Texts (fst p) (snd p)) r, hp')
    | AnalyzeImage img =>
        let (r, hp') := analyze_image json_loads R img hp in (map_outcome Object r, hp')
    | GetOrientation img =>
        let (r, hp') := get_orientation format_object R img hp in (map_outcome Text r, hp')
    | AnalyzeColors img =>
        let (r, hp') := analyze_colors format_object R img hp in (map_outcome Text r, hp')
    | ExtractTextInfo img =>
        let (r, hp') := extract_text_info json_loads R img hp in (map_outcome Object r, hp')
    end.

(** The heaps a program can get to: a client is constructed, then its
    methods are called, whatever each call returns or raises. *)
Inductive reachable : heap handle image -> Prop :=
| reach_new (url : string) : reachable (mkHeap (__init__ url) [])
| reach_call (hp : heap handle image) (m : method image) :
    reachable hp -> reachable (snd (invoke m hp)).

(** [connect()] returned its success pair. *)
Definition succeeded (r : outcome answer) : bool :=
  match r with
  | Returned (Texts _ kind) => String.eqb kind "success"
  | _ => false
  end.

(** The reachable heaps in which no [connect()] has succeeded so far. *)
Inductive never_connected : heap handle image -> Prop :=
| never_new (url : string) : never_connected (mkHeap (__init__ url) [])
| never_call (hp : heap handle image) (m : method image) :
    never_connected hp ->
    succeeded (fst (invoke m hp)) = false ->
    never_connected (snd (invoke m hp)).
End Runs.

(** The client is in the Connected state, holding the handle [h]. *)
Definition connected {handle : Type} (c : MCPImageAnalyzer handle) (h : handle) : Prop :=
  connection_status c = "Connected ✅" /\ client c = Some h.

(** The error results of the analysis operations. *)
Definition error_dict (msg : string) : pyvalue := PDict [("error", PStr msg)].

Definition is_error_dict (v : pyvalue) : bool :=
  match v with
  | PDict items => existsb (fun kv => String.eqb (fst kv) "error") items
  | _ => false
  end.

(** The heap after a request [q] went out. *)
Definition sent {handle image : Type} (hp : heap handle image) (q : request handle image)
  : heap handle image :=
  mkHeap (self hp) (calls hp ++ [q]).

(** ** The two shapes of a call to a capability *)

Section Shapes.
Variable json_loads : string -> exn + pyvalue.
Variable format_object : pyvalue -> string.

(** The conversion [json.loads(result) if isinstance(result, str) else
    result] applied to what [predict] answered, under a handler that turns
    an [Exception] into the error result [prefix ++ str(e)]. *)
Definition parsed (prefix : string) (answer : exn + pyvalue) : outcome pyvalue :=
  match answer with
  | inr (PStr s) =>
      match json_loads s with
      | inr v => Returned v
      | inl (Exception m) => Returned (error_dict (prefix ++ m))
      | inl (BaseException m) => Raised (BaseException m)
      end
  | inr v => Returned v
  | inl (Exception m) => Returned (error_dict (prefix ++ m))
  | inl (BaseException m) => Raised (BaseException m)
  end.

(** The f-string [prefix{result}] on what [predict] answered, under the
    handler of the two text operations. *)
Definition labelled (prefix : string) (answer : exn + pyvalue) : outcome string :=
  match answer with
  | inr v => Returned (prefix ++ fmt format_object v)
  | inl (Exception m) => Returned ("❌ Error: " ++ m)
  | inl (BaseException m) => Raised (BaseException m)
  end.
End Shapes.

(** ** Sample documents, remotes and heaps *)

(** [s] between double quotes. *)
Definition quoted (s : string) : string :=
  String Json.QUOTE (s ++ String Json.QUOTE "").

(** The JSON text of an object with the members width 10 and height 20. *)
Definition size_document : string :=
  "{" ++ quoted "width" ++ ":10," ++ quoted "height" ++ ":20}".

Module Sample.

(** Handles and images are numbers here. *)
Definition endpoint : string := "https://chris4k-mcp-images.hf.space".

(** A service that accepts every handshake and answers every capability
    with [answer]. *)
Definition answering (answer : exn + pyvalue) : remote nat nat :=
  mkRemote (fun _ _ => inr 1) (fun _ _ _ _ => answer).

(** A service that accepts the first handshake only. *)
Definition going_down : remote nat nat :=
  mkRemote
    (fun log _ =>
       match log with
       | [] => inr 1
       | _ :: _ => inl (Exception "Connection refused")
       end)
    (fun _ _ _ _ => inr (PStr "{}")).

(** A service that cannot be reached. *)
Definition unreachable : remote nat nat :=
  mkRemote (fun _ _ => inl (Exception "Connection refused"))
           (fun _ _ _ _ => inl (Exception "Connection refused")).

Definition no_format (v : pyvalue) : string := "<object>".

(** A new client, and the same after one [connect()]. *)
Definition fresh : heap nat nat := mkHeap (__init__ (endpoint ++ "/")) [].

Definition online (R : remote nat nat) : heap nat nat := snd (connect R fresh).

End Sample.

(** ** The callers of the client *)

(** [gr.update(...)]: the properties of a component it sets. *)
Record gr_update : Type := mk_update {
  variant : option string;
  visible : option bool
}.

(** The requests a call of [m] sends from a client [c]: [connect()] one
    handshake with the endpoint; an analysis operation one [predict] to its
    capability when the client holds a handle and is given an image, and
    nothing otherwise. *)
Definition requests_of {handle image : Type} (m : method image)
    (c : MCPImageAnalyzer handle) : list (request handle image) :=
  let to (api_name : string) (img : option image) :=
    match client c, img with
    | Some h, Some i => [ReqPredict h i api_name]
    | _, _ => []
    end in
  match m with
  | Connect => [ReqClient (space_url c)]
  | AnalyzeImage img => to "/analyze_image" img
  | GetOrientation img => to "/get_image_orientation" img
  | AnalyzeColors img => to "/count_colors" img
  | ExtractTextInfo img => to "/extract_text_info" img
  end.

(** The remote and the decoder raise instances of [Exception] only. *)
Definition raises_Exceptions_only {handle image : Type}
    (json_loads : string -> exn + pyvalue) (R : remote handle image) : Prop :=
  (forall log url msg, Client_new R log url <> inl (BaseException msg))
  /\ (forall log h i api_name msg,
        Client_predict R log h i api_name <> inl (BaseException msg))
  /\ (forall s msg, json_loads s <> inl (BaseException msg)).

Section Callers.
Context {handle image : Type}.
Variable json_loads : string -> exn + pyvalue.
Variable json_dumps : pyvalue -> exn + string.
Variable format_object : pyvalue -> string.
Variable R : remote handle image.
Local Open Scope py_scope.
Let M := M handle image.

(** The module keeps one client, [analyzer]; it is the [self] of the heap. *)
Definition connect_to_server : M (string * gr_update * gr_update) :=
  p <- connect R ;;
  let (status, status_type) := p in
  if status_type =? "success"
  then ret (status, mk_update (Some "primary") None, mk_update None (Some true))
  else ret (status, mk_update (Some "stop") None, mk_update None (Some false)).

(** [json.dumps(v, indent=2) if isinstance(v, dict) else str(v)];
    [json_dumps] stands for [json.dumps] with [indent=2]. *)
Definition show (v : pyvalue) : M string :=
  if isinstance_dict v then lift (json_dumps v) else ret (fmt format_object v).

Definition run_comprehensive_analysis (img : option image)
  : M (string * string * string * string) :=
  match img with
  | None => ret ("❌ Please upload an image first", "", "", "")
  | Some i =>
      analysis <- analyze_image json_loads R (Some i) ;;
      orientation <- get_orientation format_object R (Some i) ;;
      colors <- analyze_colors format_object R (Some i) ;;
      text_info <- extract_text_info json_loads R (Some i) ;;
      analysis_result <- show analysis ;;
      text_result <- show text_info ;;
      ret (analysis_result, orientation, colors, text_result)
  end.
End Callers.

(** ** The sample images *)

(** The part of Pillow the module uses.  An image is its mode, its size
    (width, height) and its pixels, read at (x, y). *)
Module PIL.

Definition rgb : Type := (nat * nat * nat)%type.

Record Image : Type := mkImage {
  mode : string;
  size : nat * nat;
  getpixel : nat -> nat -> rgb
}.

(** The colour names the module uses, and the colour 0 of an image created
    without one. *)
Definition red : rgb := (255, 0, 0).
Definition blue : rgb := (0, 0, 255).
Definition white : rgb := (255, 255, 255).
Definition black : rgb := (0, 0, 0).

(** [Image.new(mode, size, color)]. *)
Definition new (mode : string) (size : nat * nat) (color : rgb) : Image :=
  mkImage mode size (fun _ _ => color).

(** [pixels[x, y] = color] for [pixels = img.load()]: the access object
    writes into the image it was loaded from, and refuses a position outside
    of it. *)
Definition setitem (img : Image) (x y : nat) (color : rgb) : exn + Image :=
  if (x <? fst (size img))%nat && (y <? snd (size img))%nat then
    inr (mkImage (mode img) (size img)
           (fun x' y' => if (x' =? x)%nat && (y' =? y)%nat then color else getpixel img x' y'))
  else inl (Exception "image index out of range").

End PIL.

(** [for i in range(start, start + count): st = body i st], stopping at the
    first raise. *)
Fixpoint for_range_from {S : Type} (start count : nat) (body : nat -> S -> exn + S)
    (st : S) : exn + S :=
  match count with
  | O => inr st
  | Datatypes.S count' =>
      match body start st with
      | inl e => inl e
      | inr st' => for_range_from (Datatypes.S start) count' body st'
      end
  end.

Definition for_range {S : Type} (n : nat) (body : nat -> S -> exn + S) (st : S)
  : exn + S :=
  for_range_from 0 n body st.

(** A dict with string keys, as the list of its items in insertion order:
    [d[key] = value] and [d.get(key, None)]. *)
Fixpoint dict_set {V : Type} (d : list (string * V)) (key : string) (value : V)
  : list (string * V) :=
  match d with
  | [] => [(key, value)]
  | (k, v) :: d' =>
      if String.eqb k key then (k, value) :: d' else (k, v) :: dict_set d' key value
  end.

Fixpoint dict_get {V : Type} (d : list (string * V)) (key : string) : option V :=
  match d with
  | [] => None
  | (k, v) :: d' => if String.eqb k key then Some v else dict_get d' key
  end.

Definition keys {V : Type} (d : list (string * V)) : list string := map fst d.

(** The two nested loops of [create_sample_images]. *)
Definition gradient (img3 : PIL.Image) : exn + PIL.Image :=
  for_range 200 (fun i img =>
    for_range 400 (fun j img =>
      PIL.setitem img i j (i mod 256, j mod 256, (i + j) mod 256)) img) img3.

Definition checkerboard (img4 : PIL.Image) : exn + PIL.Image :=
  for_range 100 (fun i img =>
    for_range 100 (fun j img =>
      if negb ((i / 10 + j / 10) mod 2 =? 0)%nat
      then PIL.setitem img i j (0, 0, 0)
      else inr img) img) img4.

Definition create_sample_images : exn + list (string * PIL.Image) :=
  let samples := [] in
  let img1 := PIL.new "RGB" (400, 300) PIL.red in
  let samples := dict_set samples "Red Rectangle (400x300)" img1 in
  let img2 := PIL.new "RGB" (300, 300) PIL.blue in
  let samples := dict_set samples "Blue Square (300x300)" img2 in
  let img3 := PIL.new "RGB" (200, 400) PIL.black in
  match gradient img3 with
  | inl e => inl e
  | inr img3 =>
      let samples := dict_set samples "Colorful Gradient (200x400)" img3 in
      let img4 := PIL.new "RGB" (100, 100) PIL.white in
      match checkerboard img4 with
      | inl e => inl e
      | inr img4 =>
          let samples := dict_set samples "Checkerboard Pattern (100x100)" img4 in
          inr samples
      end
  end.

Definition load_sample_image (sample_name : string) : exn + option PIL.Image :=
  match create_sample_images with
  | inl e => inl e
  | inr samples => inr (dict_get samples sample_name)
  end.

(** More sample remotes. *)
Module Demo.

(** A service whose capabilities are interrupted from the keyboard. *)
Definition interrupted : remote nat nat :=
  mkRemote (fun _ _ => inr 1) (fun _ _ _ _ => inl (BaseException "KeyboardInterrupt")).

(** A service that hands out the number of requests seen so far as the
    handle. *)
Definition counting : remote nat nat :=
  mkRemote (fun log _ => inr (List.length log)) (fun _ h _ _ => inr (PInt (Z.of_nat h))).

(** A service whose capabilities time out. *)
Definition timing_out : remote nat nat :=
  mkRemote (fun _ _ => inr 1) (fun _ _ _ _ => inl (Exception "timed out")).

Definition no_dumps (v : pyvalue) : exn + string := inr "<json>".

End Demo.

(** The heap after a sequence of calls, whatever each returns or raises. *)
Definition run_methods {handle image : Type}
    (json_loads : string -> exn + pyvalue) (format_object : pyvalue -> string)
    (R : remote handle image) (ms : list (method image)) (hp : heap handle image)
  : heap handle image :=
  fold_left (fun hp m => snd (invoke json_loads format_object R m hp)) ms hp.

(** [c * k]. *)
Fixpoint repeat_char (c : ascii) (k : nat) : string :=
  match k with
  | O => EmptyString
  | S k' => String c (repeat_char c k')
  end.

(** [s.endswith(c)]. *)
Fixpoint endswith_char (s : string) (c : ascii) : bool :=
  match s with
  | EmptyString => false
  | String d EmptyString => Ascii.eqb d c
  | String _ s' => endswith_char s' c
  end.

(** * Properties *)

(** ** Strings *)

Lemma contains_intro (pre needle post : string) : contains needle (pre ++ needle ++ post).
Proof. exists pre, post. reflexivity. Qed.

Lemma contains_suffix (pre needle : string) : contains needle (pre ++ needle).
Proof.
  exists pre, "". induction pre as [|c pre IH]; simpl.
  - induction needle as [|d needle IHn]; simpl; [reflexivity | now rewrite <- IHn].
  - now rewrite <- IH.
Qed.

Lemma rstrip_no_trailing (chars s : string) (c : ascii) :
  mem_char c chars = true -> rstrip chars (s ++ String c "") = rstrip chars s.
Proof.
  intros Hc. induction s as [|d s IH]; simpl.
  - now rewrite Hc.
  - now rewrite IH.
Qed.

(** The constructor drops a trailing separator of the endpoint. *)
Lemma init_trailing_slash {handle : Type} (url : string) :
  @__init__ handle (url ++ "/") = __init__ url.
Proof. unfold __init__. now rewrite rstrip_no_trailing. Qed.

(** ** The methods, one equation each *)

Section Equations.
Context {handle image : Type}.
Variable json_loads : string -> exn + pyvalue.
Variable format_object : pyvalue -> string.
Variable R : remote handle image.
Implicit Types (hp : heap handle image) (h : handle) (i : image).

Lemma connect_eq hp :
  connect R hp =
  let url := space_url (self hp) in
  let log := (calls hp ++ [ReqClient url])%list in
  match Client_new R (calls hp) url with
  | inr h =>
      (Returned ("✅ Successfully connected to " ++ url, "success"),
       mkHeap (mkAnalyzer url (Some h) "Connected ✅") log)
  | inl (Exception m) =>
      (Returned ("❌ Failed to connect to " ++ url ++ ": " ++ m, "error"),
       mkHeap (mkAnalyzer url (client (self hp)) "Connection Failed ❌") log)
  | inl (BaseException m) => (Raised (BaseException m), mkHeap (self hp) log)
  end.
Proof.
  unfold connect, try_except, bind, get_space_url, new_Client, lift; simpl.
  destruct (Client_new R (calls hp) (space_url (self hp))) as [[m|m]|h]; reflexivity.
Qed.

Lemma analyze_image_eq hp img :
  analyze_image json_loads R img hp =
  match client (self hp), img with
  | None, _ =>
      (Returned (error_dict "Not connected to MCP server. Please connect first."), hp)
  | Some _, None => (Returned (error_dict "No image provided"), hp)
  | Some h, Some i =>
      (parsed json_loads "Analysis failed: " (Client_predict R (calls hp) h i "/analyze_image"),
       sent hp (ReqPredict h i "/analyze_image"))
  end.
Proof.
  unfold analyze_image, bind, get_client; simpl.
  destruct (client (self hp)) as [h|]; [|reflexivity].
  destruct img as [i|]; [|reflexivity].
  unfold try_except, bind, predict, lift, parsed, sent; simpl.
  destruct (Client_predict R (calls hp) h i "/analyze_image") as [[m|m]|v]; try reflexivity.
  destruct v; try reflexivity. simpl.
  destruct (json_loads s) as [[m|m]|v]; reflexivity.
Qed.

Lemma extract_text_info_eq hp img :
  extract_text_info json_loads R img hp =
  match client (self hp), img with
  | None, _ => (Returned (error_dict "Not connected to MCP server"), hp)
  | Some _, None => (Returned (error_dict "No image provided"), hp)
  | Some h, Some i =>
      (parsed json_loads "Text analysis failed: " (Client_predict R (calls hp) h i "/extract_text_info"),
       sent hp (ReqPredict h i "/extract_text_info"))
  end.
Proof.
  unfold extract_text_info, bind, get_client; simpl.
  destruct (client (self hp)) as [h|]; [|reflexivity].
  destruct img as [i|]; [|reflexivity].
  unfold try_except, bind, predict, lift, parsed, sent; simpl.
  destruct (Client_predict R (calls hp) h i "/extract_text_info") as [[m|m]|v];
    try reflexivity.
  destruct v; try reflexivity. simpl.
  destruct (json_loads s) as [[m|m]|v]; reflexivity.
Qed.

Lemma get_orientation_eq hp img :
  get_orientation format_object R img hp =
  match client (self hp), img with
  | None, _ => (Returned "❌ Not connected to MCP server", hp)
  | Some _, None => (Returned "❌ No image provided", hp)
  | Some h, Some i =>
      (labelled format_object "📐 Orientation: " (Client_predict R (calls hp) h i "/get_image_orientation"),
       sent hp (ReqPredict h i "/get_image_orientation"))
  end.
Proof.
  unfold get_orientation, bind, get_client; simpl.
  destruct (client (self hp)) as [h|]; [|reflexivity].
  destruct img as [i|]; [|reflexivity].
  unfold try_except, bind, predict, lift, labelled, sent; simpl.
  destruct (Client_predict R (calls hp) h i "/get_image_orientation") as [[m|m]|v];
    reflexivity.
Qed.

Lemma analyze_colors_eq hp img :
  analyze_colors format_object R img hp =
  match client (self hp), img with
  | None, _ => (Returned "❌ Not connected to MCP server", hp)
  | Some _, None => (Returned "❌ No image provided", hp)
  | Some h, Some i =>
      (labelled format_object ("🎨 Color Analysis:" ++ String "010" "")
         (Client_predict R (calls hp) h i "/count_colors"),
       sent hp (ReqPredict h i "/count_colors"))
  end.
Proof.
  unfold analyze_colors, bind, get_client; simpl.
  destruct (client (self hp)) as [h|]; [|reflexivity].
  destruct img as [i|]; [|reflexivity].
  unfold try_except, bind, predict, lift, labelled, sent; simpl.
  destruct (Client_predict R (calls hp) h i "/count_colors") as [[m|m]|v];
    reflexivity.
Qed.
End Equations.

(** ** Connection state *)

Section State.
Context {handle image : Type}.
Variable json_loads : string -> exn + pyvalue.
Variable format_object : pyvalue -> string.
Variable R : remote handle image.
Implicit Types (hp : heap handle image) (h : handle) (i : image).

(** No analysis operation writes to the client object. *)
Lemma analysis_keeps_self (m : method image) hp :
  is_analysis m = true ->
  self (snd (invoke json_loads format_object R m hp)) = self hp.
Proof.
  destruct m as [|img|img|img|img]; simpl; [discriminate| | | |]; intros _.
  - rewrite analyze_image_eq.
    destruct (client (self hp)), img; reflexivity.
  - rewrite get_orientation_eq.
    destruct (client (self hp)), img; reflexivity.
  - rewrite analyze_colors_eq.
    destruct (client (self hp)), img; reflexivity.
  - rewrite extract_text_info_eq.
    destruct (client (self hp)), img; reflexivity.
Qed.

(** A successful [connect()] leaves the client connected, with the handle
    the remote gave. *)
Lemma connect_success hp h :
  Client_new R (calls hp) (space_url (self hp)) = inr h ->
  connected (self (snd (connect R hp))) h.
Proof.
  intros Hnew. rewrite connect_eq. simpl. rewrite Hnew. split; reflexivity.
Qed.

(** In a reachable heap the status Connected comes with a handle. *)
Lemma connected_has_handle hp :
  reachable json_loads format_object R hp ->
  connection_status (self hp) = "Connected ✅" ->
  exists h, connected (self hp) h.
Proof.
  induction 1 as [url|hp m Hreach IH].
  - discriminate.
  - destruct (is_analysis m) eqn:Hm.
    + rewrite analysis_keeps_self by exact Hm. exact IH.
    + destruct m; try discriminate. simpl.
      rewrite connect_eq. cbv zeta.
      destruct (Client_new R (calls hp) (space_url (self hp))) as [[msg|msg]|h]; simpl.
      * intros Hst. discriminate Hst.
      * intros Hst. destruct (IH Hst) as [h Hc]. exists h. exact Hc.
      * intros _. exists h. split; reflexivity.
Qed.

(** The endpoint is fixed at construction. *)
Lemma space_url_fixed hp (m : method image) :
  space_url (self (snd (invoke json_loads format_object R m hp))) = space_url (self hp).
Proof.
  destruct (is_analysis m) eqn:Hm.
  - now rewrite analysis_keeps_self.
  - destruct m; try discriminate. simpl. rewrite connect_eq. cbv zeta.
    destruct (Client_new R (calls hp) (space_url (self hp))) as [[msg|msg]|h]; reflexivity.
Qed.
End State.

(** ** The fuel of the reference decoder *)

Section Fuel.
Import Json.

Lemma skip_ws_length (s : string) : String.length (skip_ws s) <= String.length s.
Proof.
  induction s as [|c s IH]; simpl; [lia|].
  destruct (is_ws c); simpl; lia.
Qed.

Lemma progress_weaken {A} (s s' : string) (r : scan A) :
  progress s r -> String.length s <= String.length s' -> progress s' r.
Proof. destruct r; simpl; intros; try exact I; try lia; contradiction. Qed.

Lemma and_then_progress {A B} (s : string) (r : scan A) (k : A -> string -> scan B) :
  progress s r ->
  (forall v rest, String.length rest < String.length s -> progress s (k v rest)) ->
  progress s (and_then r k).
Proof. destruct r; simpl; intros Hr Hk; try exact I; [now apply Hk | contradiction]. Qed.

Lemma expecting_value_progress {A} (s : string) (r : scan A) :
  progress s r -> progress s (expecting_value r).
Proof. destruct r; simpl; intros Hr; try exact I; assumption. Qed.

Lemma scanstring_progress_upto (n : nat) :
  forall s begin chunks,
    String.length s <= n -> progress s (scanstring begin s chunks).
Proof.
  induction n as [n IH] using lt_wf_ind.
  intros s begin chunks Hn.
  assert (step : forall s' chunks',
             String.length s' < String.length s ->
             progress s (scanstring begin s' chunks')).
  { intros s' chunks' Hlt.
    apply progress_weaken with (s := s'); [|lia].
    apply (IH (String.length s')); lia. }
  destruct s as [|c s1]; [exact I|]. cbn [scanstring].
  destruct (Ascii.eqb c QUOTE); [simpl; lia|].
  destruct (Ascii.eqb c BSLASH).
  - destruct s1 as [|esc s2]; [exact I|].
    destruct (negb (Ascii.eqb esc "u")).
    + destruct (BACKSLASH esc); [|exact I]. apply step. simpl. lia.
    + destruct s2 as [|h1 [|h2 [|h3 [|h4 s3]]]]; try exact I.
      destruct (hex4 h1 h2 h3 h4) as [uni|]; [|exact I].
      destruct ((55296 <=? uni)%N && (uni <=? 56319)%N); [|apply step; simpl; lia].
      destruct s3 as [|b [|u s4]]; try (apply step; simpl; lia).
      destruct (Ascii.eqb b BSLASH && Ascii.eqb u "u"); [|apply step; simpl; lia].
      destruct s4 as [|g1 [|g2 [|g3 [|g4 s5]]]]; try exact I.
      destruct (hex4 g1 g2 g3 g4) as [uni2|]; [|exact I].
      destruct ((56320 <=? uni2)%N && (uni2 <=? 57343)%N); apply step; simpl; lia.
  - destruct (N_of_ascii c <? 32)%N; [exact I|]. apply step. simpl. lia.
Qed.

Lemma scanstring_progress (begin s chunks : string) :
  progress s (scanstring begin s chunks).
Proof. now apply (scanstring_progress_upto (String.length s)). Qed.

Lemma span_digits_length (s : string) :
  String.length (snd (span_digits s)) <= String.length s.
Proof.
  induction s as [|c s IH]; simpl; [lia|].
  destruct (is_digit c); simpl; [|lia].
  destruct (span_digits s) as [ds rest]. simpl in *. lia.
Qed.

Lemma startswith_length (word s rest : string) :
  startswith word s = Some rest ->
  String.length rest + String.length word = String.length s.
Proof.
  revert s. induction word as [|a word IH]; intros s; simpl.
  - intros [= <-]. lia.
  - destruct s as [|b s]; [discriminate|].
    destruct (Ascii.eqb a b); [|discriminate].
    intros H. apply IH in H. simpl. lia.
Qed.

Lemma match_number_length (s integer frac exp rest : string) :
  match_number s = Some (integer, frac, exp, rest) ->
  String.length rest < String.length s.
Proof.
  unfold match_number.
  set (p := match s with
            | String c s' => if Ascii.eqb c "-" then ("-", s') else ("", s)
            | EmptyString => ("", s)
            end).
  assert (Hp : String.length (snd p) <= String.length s).
  { subst p. destruct s as [|c s']; simpl; [lia|]. destruct (Ascii.eqb c "-"); simpl; lia. }
  destruct p as [sign s0]. simpl in Hp.
  set (q := match s0 with
            | String c s1 =>
                if Ascii.eqb c "0" then Some (sign ++ "0", s1)
                else if is_digit c then
                  let (ds, s2) := span_digits s1 in Some (sign ++ String c ds, s2)
                else None
            | EmptyString => None
            end).
  assert (Hq : forall i s1, q = Some (i, s1) -> String.length s1 < String.length s0).
  { subst q. intros i s1. destruct s0 as [|c t]; [discriminate|].
    destruct (Ascii.eqb c "0"); [intros [= _ <-]; simpl; lia|].
    destruct (is_digit c); [|discriminate].
    pose proof (span_digits_length t) as Hd.
    destruct (span_digits t) as [ds s2]. intros [= _ <-]. simpl in *. lia. }
  destruct q as [[int s1]|]; [|discriminate].
  specialize (Hq int s1 eq_refl).
  set (f := match s1 with
            | String c s' =>
                if Ascii.eqb c "." then
                  match span_digits s' with
                  | (EmptyString, _) => ("", s1)
                  | (ds, rest) => (String c ds, rest)
                  end
                else ("", s1)
            | EmptyString => ("", s1)
            end).
  assert (Hf : String.length (snd f) <= String.length s1).
  { subst f. destruct s1 as [|c s']; simpl; [lia|].
    destruct (Ascii.eqb c "."); simpl; [|lia].
    pose proof (span_digits_length s') as Hd.
    destruct (span_digits s') as [[|d ds] r]; simpl in *; lia. }
  destruct f as [fr s2]. simpl in Hf.
  set (e := match s2 with
            | String e s' =>
                if Ascii.eqb e "e" || Ascii.eqb e "E" then
                  let (sg, s'') :=
                    match s' with
                    | String c t =>
                        if Ascii.eqb c "-" || Ascii.eqb c "+" then (String c "", t)
                        else ("", s')
                    | EmptyString => ("", s')
                    end in
                  match span_digits s'' with
                  | (EmptyString, _) => ("", s2)
                  | (ds, rest) => (String e (sg ++ ds), rest)
                  end
                else ("", s2)
            | EmptyString => ("", s2)
            end).
  assert (He : String.length (snd e) <= String.length s2).
  { subst e. destruct s2 as [|c s']; simpl; [lia|].
    destruct (Ascii.eqb c "e" || Ascii.eqb c "E"); simpl; [|lia].
    set (g := match s' with
              | String c0 t =>
                  if Ascii.eqb c0 "-" || Ascii.eqb c0 "+" then (String c0 "", t)
                  else ("", s')
              | EmptyString => ("", s')
              end).
    assert (Hg : String.length (snd g) <= String.length s').
    { subst g. destruct s' as [|c0 t]; simpl; [lia|].
      destruct (Ascii.eqb c0 "-" || Ascii.eqb c0 "+"); simpl; lia. }
    destruct g as [sg s'']. simpl in Hg.
    pose proof (span_digits_length s'') as Hd.
    destruct (span_digits s'') as [[|d ds] r]; simpl in *; lia. }
  destruct e as [ex s3]. simpl in He.
  intros [= _ _ _ <-]. lia.
Qed.

Lemma scan_number_progress (s : string) : progress s (scan_number s).
Proof.
  unfold scan_number.
  destruct (match_number s) as [[[[integer frac] exp] rest]|] eqn:Hm.
  - apply match_number_length in Hm.
    destruct (negb (frac =? "") || negb (exp =? "")); [exact Hm|].
    destruct (parse_int integer); [exact I | exact Hm].
  - destruct (startswith "NaN" s) as [r|] eqn:H1.
    { apply startswith_length in H1. simpl in *. lia. }
    destruct (startswith "Infinity" s) as [r|] eqn:H2.
    { apply startswith_length in H2. simpl in *. lia. }
    destruct (startswith "-Infinity" s) as [r|] eqn:H3.
    { apply startswith_length in H3. simpl in *. lia. }
    exact I.
Qed.

Section Loops.
Variable scan_once_f : scanner.
Variable m : nat.
Hypothesis scan_once_f_progress :
  forall s, String.length s < m -> progress s (scan_once_f s).

Lemma array_loop_progress (n : nat) :
  forall s values,
    String.length s < m -> String.length s < n ->
    progress s (array_loop scan_once_f n s values).
Proof.
  induction n as [|n IH]; intros s values Hm Hn; [lia|]. cbn [array_loop].
  apply and_then_progress.
  - apply expecting_value_progress. now apply scan_once_f_progress.
  - intros value s1 H1. cbv zeta.
    pose proof (skip_ws_length s1) as H2.
    destruct (skip_ws s1) as [|nextchar s3] eqn:E2; [exact I|]. simpl in H2.
    destruct (Ascii.eqb nextchar "]"); [simpl; lia|].
    destruct (negb (Ascii.eqb nextchar ",")); [exact I|].
    pose proof (skip_ws_length s3) as H4.
    assert (Hloop : progress s (array_loop scan_once_f n (skip_ws s3) (values ++ [value]))).
    { apply progress_weaken with (s := skip_ws s3); [|lia]. apply IH; lia. }
    destruct (skip_ws s3) as [|c s5] eqn:E4; [exact Hloop|].
    destruct (Ascii.eqb c "]"); [exact I | exact Hloop].
Qed.

Lemma JSONArray_progress (n : nat) (s : string) :
  String.length s < m -> String.length s < n ->
  progress (String "[" s) (JSONArray scan_once_f n s).
Proof.
  intros Hm Hn. unfold JSONArray. cbv zeta.
  pose proof (skip_ws_length s) as H1.
  assert (Hloop : progress (String "[" s) (array_loop scan_once_f n (skip_ws s) [])).
  { apply progress_weaken with (s := skip_ws s); [|simpl; lia].
    apply array_loop_progress; lia. }
  destruct (skip_ws s) as [|c s2] eqn:E; [exact Hloop|].
  destruct (Ascii.eqb c "]"); [simpl in *; lia | exact Hloop].
Qed.

Lemma object_loop_progress (n : nat) :
  forall begin s pairs,
    String.length s < m -> String.length s < n ->
    progress s (object_loop scan_once_f n begin s pairs).
Proof.
  induction n as [|n IH]; intros begin s pairs Hm Hn; [lia|]. cbn [object_loop].
  apply and_then_progress; [apply scanstring_progress|].
  intros key s1 H1. cbv zeta.
  pose proof (skip_ws_length s1) as H2.
  destruct (after_char ":" (skip_ws s1)) as [s3|] eqn:E3; [|exact I].
  assert (H3 : String.length s3 < String.length s1).
  { unfold after_char in E3. destruct (skip_ws s1) as [|d t]; [discriminate|].
    destruct (Ascii.eqb d ":"); [|discriminate]. injection E3 as <-. simpl in H2. lia. }
  pose proof (skip_ws_length s3) as H3'.
  apply and_then_progress.
  - apply expecting_value_progress.
    apply progress_weaken with (s := skip_ws s3); [|lia].
    apply scan_once_f_progress. lia.
  - intros value s4 H4.
    pose proof (skip_ws_length s4) as H5.
    destruct (skip_ws s4) as [|nextchar s6] eqn:E5; [exact I|]. simpl in H5.
    destruct (Ascii.eqb nextchar "}"); [simpl; lia|].
    destruct (negb (Ascii.eqb nextchar ",")); [exact I|].
    pose proof (skip_ws_length s6) as H7.
    destruct (skip_ws s6) as [|c s8] eqn:E7; [exact I|]. simpl in H7.
    destruct (Ascii.eqb c QUOTE).
    + apply progress_weaken with (s := s8); [|lia]. apply IH; lia.
    + destruct (Ascii.eqb c "}"); exact I.
Qed.

Lemma JSONObject_progress (n : nat) (s : string) :
  String.length s < m -> String.length s < n ->
  progress (String "{" s) (JSONObject scan_once_f n s).
Proof.
  intros Hm Hn. unfold JSONObject. cbv zeta.
  pose proof (skip_ws_length s) as H1.
  destruct (skip_ws s) as [|c s2] eqn:E; [exact I|]. simpl in H1.
  destruct (Ascii.eqb c "}"); [simpl; lia|].
  destruct (Ascii.eqb c QUOTE); [|exact I].
  apply progress_weaken with (s := s2); [|simpl; lia].
  apply object_loop_progress; lia.
Qed.
End Loops.

(** With more fuel than characters, [scan_once] does not run out of fuel,
    and what it scans is not empty. *)
Lemma scan_once_fuel (fuel : nat) :
  forall s, String.length s < fuel -> progress s (scan_once fuel s).
Proof.
  induction fuel as [|fuel IH]; intros s Hs; [lia|]. cbn [scan_once].
  destruct s as [|nextchar s1]; [exact I|]. simpl in Hs.
  destruct (Ascii.eqb nextchar QUOTE).
  { apply and_then_progress.
    - apply progress_weaken with (s := s1); [apply scanstring_progress | simpl; lia].
    - intros str rest Hr. exact Hr. }
  destruct (Ascii.eqb nextchar "{") eqn:Eo.
  { apply Ascii.eqb_eq in Eo. subst nextchar.
    apply JSONObject_progress with (m := fuel); [exact IH | lia | lia]. }
  destruct (Ascii.eqb nextchar "[") eqn:Ea.
  { apply Ascii.eqb_eq in Ea. subst nextchar.
    apply JSONArray_progress with (m := fuel); [exact IH | lia | lia]. }
  destruct (startswith "null" (String nextchar s1)) as [r|] eqn:H1.
  { apply startswith_length in H1. simpl in *. lia. }
  destruct (startswith "true" (String nextchar s1)) as [r|] eqn:H2.
  { apply startswith_length in H2. simpl in *. lia. }
  destruct (startswith "false" (String nextchar s1)) as [r|] eqn:H3.
  { apply startswith_length in H3. simpl in *. lia. }
  apply scan_number_progress.
Qed.

(** [decode] gives its document enough fuel. *)
Lemma decode_fuel (s : string) : decode s <> OutOfFuel.
Proof.
  unfold decode.
  pose proof (skip_ws_length s) as Hw.
  pose proof (scan_once_fuel (S (String.length s)) (skip_ws s) ltac:(lia)) as Hp.
  destruct (scan_once (S (String.length s)) (skip_ws s)); simpl in *;
    try discriminate; try contradiction.
  destruct (skip_ws rest); discriminate.
Qed.
End Fuel.

(** ** The reference decoder *)

(** Whatever [Json.loads] raises is an instance of [Exception]. *)
Lemma loads_raises_Exception (s : string) (e : exn) :
  Json.loads s = inl e -> e = Exception (str_exn e).
Proof.
  unfold Json.loads.
  destruct (Json.startswith Json.BOM s); [intros [= <-]; reflexivity|].
  destruct (Json.decode s); intros [= <-]; reflexivity.
Qed.

Lemma loads_size_document :
  Json.loads size_document = inr (PDict [("width", PInt 10); ("height", PInt 20)]).
Proof. vm_compute. reflexivity. Qed.

(** ** The guards of the analysis operations *)

Section Guards.
Context {handle image : Type}.
Variable json_loads : string -> exn + pyvalue.
Variable format_object : pyvalue -> string.
Variable R : remote handle image.
Implicit Types (hp : heap handle image) (h : handle) (i : image).

(** Without a handle the four operations answer at once and leave the heap,
    request log included, as it was. *)
Lemma no_handle_fails_fast hp (img : option image) :
  client (self hp) = None ->
  analyze_image json_loads R img hp =
    (Returned (error_dict "Not connected to MCP server. Please connect first."), hp)
  /\ get_orientation format_object R img hp =
       (Returned "❌ Not connected to MCP server", hp)
  /\ analyze_colors format_object R img hp =
       (Returned "❌ Not connected to MCP server", hp)
  /\ extract_text_info json_loads R img hp =
       (Returned (error_dict "Not connected to MCP server"), hp).
Proof.
  intros Hc.
  rewrite analyze_image_eq, get_orientation_eq, analyze_colors_eq, extract_text_info_eq.
  rewrite Hc. repeat split.
Qed.

(** A handshake that fails keeps whatever handle the client has. *)
Lemma failed_connect_keeps_handle hp (reason : string) :
  Client_new R (calls hp) (space_url (self hp)) = inl (Exception reason) ->
  client (self (snd (connect R hp))) = client (self hp).
Proof.
  intros Hnew. rewrite connect_eq. cbv zeta. rewrite Hnew. reflexivity.
Qed.

(** In a reachable heap the status Disconnected comes without a handle. *)
Lemma disconnected_no_handle hp :
  reachable json_loads format_object R hp ->
  connection_status (self hp) = "Disconnected" ->
  client (self hp) = None.
Proof.
  induction 1 as [url|hp m Hreach IH].
  - reflexivity.
  - destruct (is_analysis m) eqn:Hm.
    + rewrite analysis_keeps_self by exact Hm. exact IH.
    + destruct m; try discriminate. simpl.
      rewrite connect_eq. cbv zeta.
      destruct (Client_new R (calls hp) (space_url (self hp))) as [[msg|msg]|h]; simpl.
      * intros Hst. discriminate Hst.
      * exact IH.
      * intros Hst. discriminate Hst.
Qed.

(** While no [connect()] has succeeded the client holds no handle and is not
    in the Connected state. *)
Lemma never_connected_state hp :
  never_connected json_loads format_object R hp ->
  client (self hp) = None
  /\ ConnectionState_of (connection_status (self hp)) <> Some Connected.
Proof.
  induction 1 as [url|hp m Hnever [IHc IHs] Hfail].
  - split; [reflexivity | discriminate].
  - destruct (is_analysis m) eqn:Hm.
    + rewrite analysis_keeps_self by exact Hm. now split.
    + destruct m; try discriminate. simpl in *.
      rewrite connect_eq in *. cbv zeta in *.
      destruct (Client_new R (calls hp) (space_url (self hp))) as [[msg|msg]|h];
        simpl in *.
      * split; [exact IHc | discriminate].
      * now split.
      * discriminate Hfail.
Qed.
End Guards.

(** ** The operations of a client that is not connected *)

Section Unconnected.
Context {handle image : Type}.
Variable json_loads : string -> exn + pyvalue.
Variable format_object : pyvalue -> string.
Variable R : remote handle image.
Implicit Types (hp : heap handle image) (h : handle) (i : image).

(** C1, as amended.  For every client on which no [connect()] has succeeded
    so far (it is Disconnected, or Failed without an earlier success) and
    every image argument: the client holds no handle, it is not Connected,
    and each of the four analysis operations returns its error result and
    leaves the heap as it was, so that no request goes out. *)
Theorem unconnected_client_sends_nothing hp (img : option image) :
  never_connected json_loads format_object R hp ->
  client (self hp) = None
  /\ ConnectionState_of (connection_status (self hp)) <> Some Connected
  /\ analyze_image json_loads R img hp =
       (Returned (error_dict "Not connected to MCP server. Please connect first."), hp)
  /\ get_orientation format_object R img hp =
       (Returned "❌ Not connected to MCP server", hp)
  /\ analyze_colors format_object R img hp =
       (Returned "❌ Not connected to MCP server", hp)
  /\ extract_text_info json_loads R img hp =
       (Returned (error_dict "Not connected to MCP server"), hp).
Proof.
  intros Hnever.
  destruct (never_connected_state json_loads format_object R hp Hnever) as [Hc Hs].
  split; [exact Hc|]. split; [exact Hs|].
  now apply no_handle_fails_fast.
Qed.

(** C7.  On a freshly constructed client, which is in the Disconnected
    state, each of the four analysis operations returns an error result whose
    message says that the client is not connected, and the heap, with its log
    of requests, is unchanged: nothing is sent to the remote. *)
Theorem fresh_client_not_connected (url : string)
    (log : list (request handle image)) (img : option image) :
  let hp := mkHeap (__init__ url) log in
  ConnectionState_of (connection_status (self hp)) = Some Disconnected
  /\ analyze_image json_loads R img hp =
       (Returned (error_dict "Not connected to MCP server. Please connect first."), hp)
  /\ get_orientation format_object R img hp =
       (Returned "❌ Not connected to MCP server", hp)
  /\ analyze_colors format_object R img hp =
       (Returned "❌ Not connected to MCP server", hp)
  /\ extract_text_info json_loads R img hp =
       (Returned (error_dict "Not connected to MCP server"), hp)
  /\ contains "Not connected" "Not connected to MCP server. Please connect first."
  /\ contains "Not connected" "❌ Not connected to MCP server"
  /\ contains "Not connected" "Not connected to MCP server".
Proof.
  intros hp. split; [reflexivity|].
  destruct (no_handle_fails_fast json_loads format_object R hp img eq_refl)
    as (Ha & Ho & Hk & Ht).
  repeat split; try assumption.
  - exact (contains_intro "" "Not connected" " to MCP server. Please connect first.").
  - exact (contains_intro "❌ " "Not connected" " to MCP server").
  - exact (contains_intro "" "Not connected" " to MCP server").
Qed.
End Unconnected.

(** ** The operations of a connected client *)

Section Connected.
Context {handle image : Type}.
Variable json_loads : string -> exn + pyvalue.
Variable format_object : pyvalue -> string.
Variable R : remote handle image.
Implicit Types (hp : heap handle image) (h : handle) (i : image).

(** C8.  On a connected client, each of the four analysis operations called
    without an image ([None]) returns an error result whose message says that
    no image was provided, and leaves the heap, with its log of requests,
    unchanged. *)
Theorem no_image_is_error_result hp h :
  connected (self hp) h ->
  analyze_image json_loads R None hp = (Returned (error_dict "No image provided"), hp)
  /\ get_orientation format_object R None hp = (Returned "❌ No image provided", hp)
  /\ analyze_colors format_object R None hp = (Returned "❌ No image provided", hp)
  /\ extract_text_info json_loads R None hp = (Returned (error_dict "No image provided"), hp)
  /\ contains "No image" "No image provided"
  /\ contains "No image" "❌ No image provided".
Proof.
  intros [_ Hc].
  rewrite analyze_image_eq, get_orientation_eq, analyze_colors_eq, extract_text_info_eq.
  rewrite Hc. repeat split.
  - exact (contains_intro "" "No image" " provided").
  - exact (contains_intro "❌ " "No image" " provided").
Qed.

(** C2.  On a connected client and an image, when the capability answers a
    string that [json.loads] decodes to [v], [analyze_image] and
    [extract_text_info] return [v], after one request; with the decoder of
    the standard library, the answer [{"width":10,"height":20}] gives the
    mapping of width to 10 and height to 20. *)
Theorem json_string_response_is_parsed hp h i (s : string) (v : pyvalue) :
  connected (self hp) h ->
  json_loads s = inr v ->
  (Client_predict R (calls hp) h i "/analyze_image" = inr (PStr s) ->
   analyze_image json_loads R (Some i) hp =
     (Returned v, sent hp (ReqPredict h i "/analyze_image")))
  /\ (Client_predict R (calls hp) h i "/extract_text_info" = inr (PStr s) ->
      extract_text_info json_loads R (Some i) hp =
        (Returned v, sent hp (ReqPredict h i "/extract_text_info")))
  /\ (Client_predict R (calls hp) h i "/analyze_image" = inr (PStr size_document) ->
      analyze_image Json.loads R (Some i) hp =
        (Returned (PDict [("width", PInt 10); ("height", PInt 20)]),
         sent hp (ReqPredict h i "/analyze_image")))
  /\ (Client_predict R (calls hp) h i "/extract_text_info" = inr (PStr size_document) ->
      extract_text_info Json.loads R (Some i) hp =
        (Returned (PDict [("width", PInt 10); ("height", PInt 20)]),
         sent hp (ReqPredict h i "/extract_text_info"))).
Proof.
  intros [_ Hc] Hv. repeat split; intros Hp.
  - rewrite analyze_image_eq, Hc, Hp. simpl. now rewrite Hv.
  - rewrite extract_text_info_eq, Hc, Hp. simpl. now rewrite Hv.
  - rewrite analyze_image_eq, Hc, Hp. unfold parsed. now rewrite loads_size_document.
  - rewrite extract_text_info_eq, Hc, Hp. unfold parsed. now rewrite loads_size_document.
Qed.

(** C3.  On a connected client and an image, when the capability answers a
    string on which [json.loads] raises with the reason [reason],
    [analyze_image] and [extract_text_info] return (they do not raise) an
    error result whose message ends with [reason]; with the decoder of the
    standard library this holds of every string it refuses. *)
Theorem malformed_json_is_error_result hp h i (s reason : string) :
  connected (self hp) h ->
  json_loads s = inl (Exception reason) ->
  (Client_predict R (calls hp) h i "/analyze_image" = inr (PStr s) ->
   analyze_image json_loads R (Some i) hp =
     (Returned (error_dict ("Analysis failed: " ++ reason)),
      sent hp (ReqPredict h i "/analyze_image")))
  /\ (Client_predict R (calls hp) h i "/extract_text_info" = inr (PStr s) ->
      extract_text_info json_loads R (Some i) hp =
        (Returned (error_dict ("Text analysis failed: " ++ reason)),
         sent hp (ReqPredict h i "/extract_text_info")))
  /\ contains reason ("Analysis failed: " ++ reason)
  /\ contains reason ("Text analysis failed: " ++ reason)
  /\ forall (s' : string) (e : exn),
       Json.loads s' = inl e ->
       (Client_predict R (calls hp) h i "/analyze_image" = inr (PStr s') ->
        analyze_image Json.loads R (Some i) hp =
          (Returned (error_dict ("Analysis failed: " ++ str_exn e)),
           sent hp (ReqPredict h i "/analyze_image")))
       /\ (Client_predict R (calls hp) h i "/extract_text_info" = inr (PStr s') ->
           extract_text_info Json.loads R (Some i) hp =
             (Returned (error_dict ("Text analysis failed: " ++ str_exn e)),
              sent hp (ReqPredict h i "/extract_text_info"))).
Proof.
  intros [_ Hc] Hv. split; [|split; [|split; [|split]]].
  - intros Hp. rewrite analyze_image_eq, Hc, Hp. simpl. now rewrite Hv.
  - intros Hp. rewrite extract_text_info_eq, Hc, Hp. simpl. now rewrite Hv.
  - apply contains_suffix.
  - apply contains_suffix.
  - intros s' e He. pose proof (loads_raises_Exception s' e He) as HE.
    split; intros Hp.
    + rewrite analyze_image_eq, Hc, Hp. simpl. rewrite He, HE. reflexivity.
    + rewrite extract_text_info_eq, Hc, Hp. simpl. rewrite He, HE. reflexivity.
Qed.

(** C6.  On a connected client and an image, when the capability answers a
    value that is not a string, [analyze_image] and [extract_text_info]
    return that very value, after one request. *)
Theorem structured_response_passes_through hp h i (v : pyvalue) :
  connected (self hp) h ->
  isinstance_str v = false ->
  (Client_predict R (calls hp) h i "/analyze_image" = inr v ->
   analyze_image json_loads R (Some i) hp =
     (Returned v, sent hp (ReqPredict h i "/analyze_image")))
  /\ (Client_predict R (calls hp) h i "/extract_text_info" = inr v ->
      extract_text_info json_loads R (Some i) hp =
        (Returned v, sent hp (ReqPredict h i "/extract_text_info"))).
Proof.
  intros [_ Hc] Hv. split; intros Hp.
  - rewrite analyze_image_eq, Hc, Hp. destruct v; try reflexivity; discriminate.
  - rewrite extract_text_info_eq, Hc, Hp. destruct v; try reflexivity; discriminate.
Qed.

(** C10.  On a connected client and an image, when the capability answers a
    string that [json.loads] decodes to a value [v] that is not a mapping,
    [analyze_image] and [extract_text_info] return [v] as it is: a result
    that is neither a mapping nor an error result.  With the decoder of the
    standard library the documents [42], [true], ["landscape"] and [[1,2]]
    are such strings. *)
Theorem non_mapping_json_is_returned hp h i (s : string) (v : pyvalue) :
  connected (self hp) h ->
  json_loads s = inr v ->
  isinstance_dict v = false ->
  (Client_predict R (calls hp) h i "/analyze_image" = inr (PStr s) ->
   analyze_image json_loads R (Some i) hp =
     (Returned v, sent hp (ReqPredict h i "/analyze_image")))
  /\ (Client_predict R (calls hp) h i "/extract_text_info" = inr (PStr s) ->
      extract_text_info json_loads R (Some i) hp =
        (Returned v, sent hp (ReqPredict h i "/extract_text_info")))
  /\ is_error_dict v = false
  /\ Json.loads "42" = inr (PInt 42)
  /\ Json.loads "true" = inr (PBool true)
  /\ Json.loads (quoted "landscape") = inr (PStr "landscape")
  /\ Json.loads "[1,2]" = inr (PList [PInt 1; PInt 2]).
Proof.
  intros [_ Hc] Hv Hd. split; [|split; [|split]].
  - intros Hp. rewrite analyze_image_eq, Hc, Hp. simpl. now rewrite Hv.
  - intros Hp. rewrite extract_text_info_eq, Hc, Hp. simpl. now rewrite Hv.
  - destruct v; try reflexivity; discriminate.
  - repeat split; vm_compute; reflexivity.
Qed.

(** C4, as amended.  On a connected client and an image, when the
    orientation capability answers the label [label], [get_orientation]
    returns the fixed prefix followed by the label, unchanged, after one
    request to that capability. *)
Theorem orientation_label_is_prefixed hp h i (label : string) :
  connected (self hp) h ->
  Client_predict R (calls hp) h i "/get_image_orientation" = inr (PStr label) ->
  get_orientation format_object R (Some i) hp =
    (Returned ("📐 Orientation: " ++ label),
     sent hp (ReqPredict h i "/get_image_orientation")).
Proof.
  intros [_ Hc] Hp. rewrite get_orientation_eq, Hc, Hp. reflexivity.
Qed.
End Connected.

(** ** [connect()] and the client object *)

Section Connection.
Context {handle image : Type}.
Variable json_loads : string -> exn + pyvalue.
Variable format_object : pyvalue -> string.
Variable R : remote handle image.
Implicit Types (hp : heap handle image) (h : handle) (i : image).

(** C5.  When the handshake with the client's endpoint fails, [connect()]
    returns (it does not raise) the pair of a message and ["error"]; the
    status is then Failed, not Connected, and the message holds the endpoint
    and the words [Failed to connect]. *)
Theorem connect_failure_is_reported hp (reason : string) :
  Client_new R (calls hp) (space_url (self hp)) = inl (Exception reason) ->
  let url := space_url (self hp) in
  let text := "❌ Failed to connect to " ++ url ++ ": " ++ reason in
  let hp' := snd (connect R hp) in
  fst (connect R hp) = Returned (text, "error")
  /\ connection_status (self hp') = "Connection Failed ❌"
  /\ ConnectionState_of (connection_status (self hp')) = Some Failed
  /\ ConnectionState_of (connection_status (self hp')) <> Some Connected
  /\ contains url text
  /\ contains "Failed to connect" text.
Proof.
  intros Hnew url text hp'. subst hp'. rewrite connect_eq. cbv zeta. rewrite Hnew.
  simpl. repeat split.
  - discriminate.
  - exact (contains_intro "❌ Failed to connect to " url (": " ++ reason)).
  - exact (contains_intro "❌ " "Failed to connect" (" to " ++ url ++ ": " ++ reason)).
Qed.

(** C9.  Whatever the remote answers or raises and whatever the decoder
    does, each of the four analysis operations leaves the client object as
    it was: the same connection status, the same handle, the same
    endpoint. *)
Theorem operations_preserve_client hp (img : option image) :
  let same (hp' : heap handle image) :=
    connection_status (self hp') = connection_status (self hp)
    /\ client (self hp') = client (self hp)
    /\ space_url (self hp') = space_url (self hp) in
  same (snd (analyze_image json_loads R img hp))
  /\ same (snd (get_orientation format_object R img hp))
  /\ same (snd (analyze_colors format_object R img hp))
  /\ same (snd (extract_text_info json_loads R img hp)).
Proof.
  intros same.
  pose proof (analysis_keeps_self json_loads format_object R (AnalyzeImage img) hp eq_refl) as Ha.
  pose proof (analysis_keeps_self json_loads format_object R (GetOrientation img) hp eq_refl) as Ho.
  pose proof (analysis_keeps_self json_loads format_object R (AnalyzeColors img) hp eq_refl) as Hk.
  pose proof (analysis_keeps_self json_loads format_object R (ExtractTextInfo img) hp eq_refl) as Ht.
  simpl in Ha, Ho, Hk, Ht.
  destruct (analyze_image json_loads R img hp) as [ra ha].
  destruct (get_orientation format_object R img hp) as [ro ho].
  destruct (analyze_colors format_object R img hp) as [rk hk].
  destruct (extract_text_info json_loads R img hp) as [rt ht].
  simpl in *. unfold same. rewrite Ha, Ho, Hk, Ht. repeat split.
Qed.
End Connection.

(** ** Runs on the sample remotes *)

(** C1, the claim as written fails.  A client connects, then a second
    [connect()] fails: the status is Failed, the first handle is still there,
    and [analyze_image] sends its request and returns what the capability
    answered. *)
Lemma stale_handle_after_failed_reconnect :
  let R := Sample.going_down in
  let hp := snd (connect R (Sample.online R)) in
  reachable Json.loads Sample.no_format R hp
  /\ ConnectionState_of (connection_status (self hp)) = Some Failed
  /\ analyze_image Json.loads R (Some 0) hp =
       (Returned (PDict []), sent hp (ReqPredict 1 0 "/analyze_image"))
  /\ calls (snd (analyze_image Json.loads R (Some 0) hp)) <> calls hp.
Proof.
  intros R hp. split; [|split; [|split]].
  - exact (reach_call Json.loads Sample.no_format R _ Connect
             (reach_call Json.loads Sample.no_format R _ Connect
                (reach_new Json.loads Sample.no_format R (Sample.endpoint ++ "/")))).
  - vm_compute. reflexivity.
  - vm_compute. reflexivity.
  - vm_compute. intros H. discriminate H.
Qed.

(** C4, the claim as written fails.  The orientation capability answers
    [landscape]; [get_orientation] returns a longer text, not the label. *)
Lemma orientation_not_verbatim :
  let R := Sample.answering (inr (PStr "landscape")) in
  let hp := Sample.online R in
  connected (self hp) 1
  /\ Client_predict R (calls hp) 1 0 "/get_image_orientation" = inr (PStr "landscape")
  /\ fst (get_orientation Sample.no_format R (Some 0) hp)
     = Returned "📐 Orientation: landscape"
  /\ fst (get_orientation Sample.no_format R (Some 0) hp) <> Returned "landscape".
Proof.
  intros R hp. split; [split; reflexivity|]. split; [reflexivity|]. split.
  - vm_compute. reflexivity.
  - vm_compute. intros H. discriminate H.
Qed.

(** A client whose only [connect()] failed: its operations send nothing. *)
Lemma unconnected_client_sends_nothing_witness :
  let R := Sample.unreachable in
  let hp := snd (connect R Sample.fresh) in
  never_connected Json.loads Sample.no_format R hp
  /\ ConnectionState_of (connection_status (self hp)) = Some Failed
  /\ analyze_image Json.loads R (Some 0) hp =
       (Returned (error_dict "Not connected to MCP server. Please connect first."), hp).
Proof.
  intros R hp.
  assert (Hn : never_connected Json.loads Sample.no_format R hp).
  { exact (never_call Json.loads Sample.no_format R Sample.fresh Connect
             (never_new Json.loads Sample.no_format R (Sample.endpoint ++ "/")) eq_refl). }
  split; [exact Hn|]. split; [reflexivity|].
  exact (proj1 (proj2 (proj2
           (unconnected_client_sends_nothing Json.loads Sample.no_format R hp
              (Some 0) Hn)))).
Defined.

Lemma no_image_is_error_result_witness :
  let R := Sample.answering (inr PNone) in
  connected (self (Sample.online R)) 1
  /\ analyze_image Json.loads R None (Sample.online R) =
       (Returned (error_dict "No image provided"), Sample.online R).
Proof.
  intros R.
  assert (Hc : connected (self (Sample.online R)) 1) by (split; reflexivity).
  split; [exact Hc|].
  exact (proj1 (no_image_is_error_result Json.loads Sample.no_format R
                  (Sample.online R) 1 Hc)).
Defined.

Lemma json_string_response_is_parsed_witness :
  let R := Sample.answering (inr (PStr size_document)) in
  let hp := Sample.online R in
  connected (self hp) 1
  /\ Json.loads size_document = inr (PDict [("width", PInt 10); ("height", PInt 20)])
  /\ analyze_image Json.loads R (Some 0) hp =
       (Returned (PDict [("width", PInt 10); ("height", PInt 20)]),
        sent hp (ReqPredict 1 0 "/analyze_image")).
Proof.
  intros R hp.
  assert (Hc : connected (self hp) 1) by (split; reflexivity).
  assert (Hv : Json.loads size_document
               = inr (PDict [("width", PInt 10); ("height", PInt 20)]))
    by (vm_compute; reflexivity).
  split; [exact Hc|]. split; [exact Hv|].
  exact (proj1 (json_string_response_is_parsed Json.loads R hp 1 0 size_document _ Hc Hv)
           eq_refl).
Defined.

Lemma malformed_json_is_error_result_witness :
  let R := Sample.answering (inr (PStr "{bad")) in
  let hp := Sample.online R in
  let reason :=
    "Expecting property name enclosed in double quotes: line 1 column 2 (char 1)" in
  connected (self hp) 1
  /\ Json.loads "{bad" = inl (Exception reason)
  /\ analyze_image Json.loads R (Some 0) hp =
       (Returned (error_dict ("Analysis failed: " ++ reason)),
        sent hp (ReqPredict 1 0 "/analyze_image")).
Proof.
  intros R hp reason.
  assert (Hc : connected (self hp) 1) by (split; reflexivity).
  assert (Hv : Json.loads "{bad" = inl (Exception reason)) by (vm_compute; reflexivity).
  split; [exact Hc|]. split; [exact Hv|].
  exact (proj1 (malformed_json_is_error_result Json.loads R hp 1 0 "{bad" reason Hc Hv)
           eq_refl).
Defined.

Lemma structured_response_passes_through_witness :
  let v := PDict [("width", PInt 10); ("height", PInt 20)] in
  let R := Sample.answering (inr v) in
  let hp := Sample.online R in
  connected (self hp) 1
  /\ isinstance_str v = false
  /\ extract_text_info Json.loads R (Some 0) hp =
       (Returned v, sent hp (ReqPredict 1 0 "/extract_text_info")).
Proof.
  intros v R hp.
  assert (Hc : connected (self hp) 1) by (split; reflexivity).
  split; [exact Hc|]. split; [reflexivity|].
  exact (proj2 (structured_response_passes_through Json.loads R hp 1 0 v Hc eq_refl)
           eq_refl).
Defined.

Lemma non_mapping_json_is_returned_witness :
  let R := Sample.answering (inr (PStr "[1,2]")) in
  let hp := Sample.online R in
  let v := PList [PInt 1; PInt 2] in
  connected (self hp) 1
  /\ Json.loads "[1,2]" = inr v
  /\ isinstance_dict v = false
  /\ analyze_image Json.loads R (Some 0) hp =
       (Returned v, sent hp (ReqPredict 1 0 "/analyze_image")).
Proof.
  intros R hp v.
  assert (Hc : connected (self hp) 1) by (split; reflexivity).
  assert (Hv : Json.loads "[1,2]" = inr v) by (vm_compute; reflexivity).
  split; [exact Hc|]. split; [exact Hv|]. split; [reflexivity|].
  exact (proj1 (non_mapping_json_is_returned Json.loads R hp 1 0 "[1,2]" v Hc Hv eq_refl)
           eq_refl).
Defined.

Lemma orientation_label_is_prefixed_witness :
  let R := Sample.answering (inr (PStr "portrait")) in
  let hp := Sample.online R in
  connected (self hp) 1
  /\ get_orientation Sample.no_format R (Some 0) hp =
       (Returned "📐 Orientation: portrait",
        sent hp (ReqPredict 1 0 "/get_image_orientation")).
Proof.
  intros R hp.
  assert (Hc : connected (self hp) 1) by (split; reflexivity).
  split; [exact Hc|].
  exact (orientation_label_is_prefixed Sample.no_format R hp 1 0 "portrait" Hc eq_refl).
Defined.

Lemma connect_failure_is_reported_witness :
  Client_new Sample.unreachable (calls Sample.fresh) (space_url (self Sample.fresh))
  = inl (Exception "Connection refused")
  /\ fst (connect Sample.unreachable Sample.fresh) =
       Returned ("❌ Failed to connect to https://chris4k-mcp-images.hf.space: Connection refused",
                 "error")
  /\ connection_status (self (snd (connect Sample.unreachable Sample.fresh)))
     = "Connection Failed ❌".
Proof.
  split; [reflexivity|].
  pose proof (connect_failure_is_reported Sample.unreachable Sample.fresh
                "Connection refused" eq_refl) as H.
  split; [exact (proj1 H) | exact (proj1 (proj2 H))].
Defined.

(** * Further properties of the client *)

Section Outcomes.
Context {handle image : Type}.
Variable json_loads : string -> exn + pyvalue.
Variable format_object : pyvalue -> string.
Variable R : remote handle image.
Implicit Types (hp : heap handle image) (h : handle) (i : image).

(** X1.  When [predict] raises an [Exception] (a transport failure), each of
    the four analysis operations returns, after that one request, its error
    result built from [str(e)]: an error dict for [analyze_image] and
    [extract_text_info], an error text for [get_orientation] and
    [analyze_colors]. *)
Theorem transport_failure_is_error_result hp h i (reason : string) :
  client (self hp) = Some h ->
  (Client_predict R (calls hp) h i "/analyze_image" = inl (Exception reason) ->
   analyze_image json_loads R (Some i) hp =
     (Returned (error_dict ("Analysis failed: " ++ reason)),
      sent hp (ReqPredict h i "/analyze_image")))
  /\ (Client_predict R (calls hp) h i "/get_image_orientation" = inl (Exception reason) ->
      get_orientation format_object R (Some i) hp =
        (Returned ("❌ Error: " ++ reason),
         sent hp (ReqPredict h i "/get_image_orientation")))
  /\ (Client_predict R (calls hp) h i "/count_colors" = inl (Exception reason) ->
      analyze_colors format_object R (Some i) hp =
        (Returned ("❌ Error: " ++ reason), sent hp (ReqPredict h i "/count_colors")))
  /\ (Client_predict R (calls hp) h i "/extract_text_info" = inl (Exception reason) ->
      extract_text_info json_loads R (Some i) hp =
        (Returned (error_dict ("Text analysis failed: " ++ reason)),
         sent hp (ReqPredict h i "/extract_text_info"))).
Proof.
  intros Hc. repeat split; intros Hp.
  - now rewrite analyze_image_eq, Hc, Hp.
  - now rewrite get_orientation_eq, Hc, Hp.
  - now rewrite analyze_colors_eq, Hc, Hp.
  - now rewrite extract_text_info_eq, Hc, Hp.
Qed.

(** X2.  When the colour capability answers a text, [analyze_colors] returns
    the heading, a line break and that text, unchanged, after one request to
    that capability. *)
Theorem color_summary_is_headed hp h i (summary : string) :
  client (self hp) = Some h ->
  Client_predict R (calls hp) h i "/count_colors" = inr (PStr summary) ->
  analyze_colors format_object R (Some i) hp =
    (Returned ("🎨 Color Analysis:" ++ String "010" summary),
     sent hp (ReqPredict h i "/count_colors")).
Proof.
  intros Hc Hp. now rewrite analyze_colors_eq, Hc, Hp.
Qed.

(** X3.  No method raises an instance of [Exception]: what a call of
    [connect()] or of an analysis operation raises is a [BaseException]
    that is not one. *)
Theorem methods_raise_no_Exception (m : method image) hp (e : exn) :
  fst (invoke json_loads format_object R m hp) = Raised e ->
  exists msg, e = BaseException msg.
Proof.
  destruct m as [|img|img|img|img]; simpl.
  - rewrite connect_eq. cbv zeta.
    destruct (Client_new R (calls hp) (space_url (self hp))) as [[msg|msg]|h]; simpl;
      intros [= <-]. now exists msg.
  - rewrite analyze_image_eq.
    destruct (client (self hp)) as [h|], img as [i|]; simpl; try discriminate.
    unfold parsed.
    destruct (Client_predict R (calls hp) h i "/analyze_image") as [[msg|msg]|v];
      simpl; try discriminate.
    + intros [= <-]. now exists msg.
    + destruct v; simpl; try discriminate.
      destruct (json_loads s) as [[msg|msg]|v]; simpl; try discriminate.
      intros [= <-]. now exists msg.
  - rewrite get_orientation_eq.
    destruct (client (self hp)) as [h|], img as [i|]; simpl; try discriminate.
    unfold labelled.
    destruct (Client_predict R (calls hp) h i "/get_image_orientation") as [[msg|msg]|v];
      simpl; try discriminate.
    intros [= <-]. now exists msg.
  - rewrite analyze_colors_eq.
    destruct (client (self hp)) as [h|], img as [i|]; simpl; try discriminate.
    unfold labelled.
    destruct (Client_predict R (calls hp) h i "/count_colors") as [[msg|msg]|v];
      simpl; try discriminate.
    intros [= <-]. now exists msg.
  - rewrite extract_text_info_eq.
    destruct (client (self hp)) as [h|], img as [i|]; simpl; try discriminate.
    unfold parsed.
    destruct (Client_predict R (calls hp) h i "/extract_text_info") as [[msg|msg]|v];
      simpl; try discriminate.
    + intros [= <-]. now exists msg.
    + destruct v; simpl; try discriminate.
      destruct (json_loads s) as [[msg|msg]|v]; simpl; try discriminate.
      intros [= <-]. now exists msg.
Qed.

(** X4.  When the remote and the decoder raise instances of [Exception]
    only, every call of [connect()] and of an analysis operation returns. *)
Theorem methods_return (m : method image) hp :
  raises_Exceptions_only json_loads R ->
  exists a, fst (invoke json_loads format_object R m hp) = Returned a.
Proof.
  intros (Hnew & Hpredict & Hloads).
  destruct (fst (invoke json_loads format_object R m hp)) as [a|e] eqn:Hr.
  - now exists a.
  - exfalso. revert Hr.
    destruct m as [|img|img|img|img]; simpl.
    + rewrite connect_eq. cbv zeta.
      pose proof (Hnew (calls hp) (space_url (self hp))) as Hn.
      destruct (Client_new R (calls hp) (space_url (self hp))) as [[msg|msg]|h]; simpl;
        try discriminate.
      now contradiction (Hn msg).
    + rewrite analyze_image_eq.
      destruct (client (self hp)) as [h|], img as [i|]; simpl; try discriminate.
      unfold parsed. pose proof (Hpredict (calls hp) h i "/analyze_image") as Hp.
      destruct (Client_predict R (calls hp) h i "/analyze_image") as [[msg|msg]|v];
        simpl; try discriminate.
      * now contradiction (Hp msg).
      * destruct v; simpl; try discriminate.
        pose proof (Hloads s) as Hl.
        destruct (json_loads s) as [[msg|msg]|v]; simpl; try discriminate.
        now contradiction (Hl msg).
    + rewrite get_orientation_eq.
      destruct (client (self hp)) as [h|], img as [i|]; simpl; try discriminate.
      unfold labelled. pose proof (Hpredict (calls hp) h i "/get_image_orientation") as Hp.
      destruct (Client_predict R (calls hp) h i "/get_image_orientation")
        as [[msg|msg]|v]; simpl; try discriminate.
      now contradiction (Hp msg).
    + rewrite analyze_colors_eq.
      destruct (client (self hp)) as [h|], img as [i|]; simpl; try discriminate.
      unfold labelled. pose proof (Hpredict (calls hp) h i "/count_colors") as Hp.
      destruct (Client_predict R (calls hp) h i "/count_colors") as [[msg|msg]|v];
        simpl; try discriminate.
      now contradiction (Hp msg).
    + rewrite extract_text_info_eq.
      destruct (client (self hp)) as [h|], img as [i|]; simpl; try discriminate.
      unfold parsed. pose proof (Hpredict (calls hp) h i "/extract_text_info") as Hp.
      destruct (Client_predict R (calls hp) h i "/extract_text_info") as [[msg|msg]|v];
        simpl; try discriminate.
      * now contradiction (Hp msg).
      * destruct v; simpl; try discriminate.
        pose proof (Hloads s) as Hl.
        destruct (json_loads s) as [[msg|msg]|v]; simpl; try discriminate.
        now contradiction (Hl msg).
Qed.

(** X5.  A call sends the requests of [requests_of], in that order, after
    those already sent: [connect()] always one handshake, an analysis
    operation one [predict] when the client holds a handle and an image is
    given and none otherwise; nothing is ever removed from the log. *)
Theorem requests_sent (m : method image) hp :
  calls (snd (invoke json_loads format_object R m hp))
  = (calls hp ++ requests_of m (self hp))%list.
Proof.
  destruct m as [|img|img|img|img]; simpl.
  - rewrite connect_eq. cbv zeta.
    destruct (Client_new R (calls hp) (space_url (self hp))) as [[msg|msg]|h]; reflexivity.
  - rewrite analyze_image_eq.
    destruct (client (self hp)) as [h|], img as [i|]; simpl;
      try reflexivity; now rewrite app_nil_r.
  - rewrite get_orientation_eq.
    destruct (client (self hp)) as [h|], img as [i|]; simpl;
      try reflexivity; now rewrite app_nil_r.
  - rewrite analyze_colors_eq.
    destruct (client (self hp)) as [h|], img as [i|]; simpl;
      try reflexivity; now rewrite app_nil_r.
  - rewrite extract_text_info_eq.
    destruct (client (self hp)) as [h|], img as [i|]; simpl;
      try reflexivity; now rewrite app_nil_r.
Qed.
End Outcomes.

(** ** The life of a connection *)

Lemma rstrip_slash_decompose (s : string) :
  exists k, s = rstrip "/" s ++ repeat_char "/" k.
Proof.
  induction s as [|c s [k IH]]; [now exists 0|]. simpl.
  destruct (rstrip "/" s) as [|d r] eqn:Hr.
  - simpl in IH. destruct (Ascii.eqb c "/") eqn:Hc; simpl.
    + apply Ascii.eqb_eq in Hc. subst c. exists (S k). simpl. now rewrite <- IH.
    + exists k. simpl. now rewrite <- IH.
  - exists k. simpl. simpl in IH. now rewrite <- IH.
Qed.

Lemma rstrip_slash_end (s : string) : endswith_char (rstrip "/" s) "/" = false.
Proof.
  induction s as [|c s IH]; [reflexivity|]. simpl.
  destruct (rstrip "/" s) as [|d r] eqn:Hr.
  - destruct (Ascii.eqb c "/") eqn:Hc; simpl; [reflexivity|].
    now rewrite Hc.
  - exact IH.
Qed.

Section Lifecycle.
Context {handle image : Type}.
Variable json_loads : string -> exn + pyvalue.
Variable format_object : pyvalue -> string.
Variable R : remote handle image.
Implicit Types (hp : heap handle image) (h : handle) (i : image).

(** X6.  The constructor removes the trailing slashes of the address and
    nothing else: the address is the stored endpoint followed by slashes,
    and the stored endpoint does not end with a slash. *)
Theorem endpoint_is_normalised (url : string) :
  let endpoint := space_url (@__init__ handle url) in
  (exists k, url = endpoint ++ repeat_char "/" k)
  /\ endswith_char endpoint "/" = false.
Proof.
  simpl. split; [apply rstrip_slash_decompose | apply rstrip_slash_end].
Qed.

(** X7.  Whatever methods are called on a new client, and whatever they
    return or raise, the endpoint stays the one the constructor stored. *)
Theorem endpoint_is_fixed (url : string) (ms : list (method image)) :
  space_url (self (run_methods json_loads format_object R ms (mkHeap (__init__ url) [])))
  = rstrip "/" url.
Proof.
  change (rstrip "/" url)
    with (space_url (self (@mkHeap handle image (__init__ url) []))).
  generalize (@mkHeap handle image (__init__ url) []).
  induction ms as [|m ms IH]; intros hp; [reflexivity|].
  simpl. rewrite IH. apply space_url_fixed.
Qed.

(** X8.  A call changes the handle in one case only: [connect()] with a
    handshake that succeeds stores the new handle.  Every other call, a
    failed [connect()] included, leaves the handle as it was. *)
Theorem handle_changes_on_successful_connect_only (m : method image) hp :
  let hp' := snd (invoke json_loads format_object R m hp) in
  client (self hp') = client (self hp)
  \/ (m = Connect
      /\ exists h, Client_new R (calls hp) (space_url (self hp)) = inr h
                   /\ client (self hp') = Some h).
Proof.
  destruct (is_analysis m) eqn:Hm.
  - left. now rewrite analysis_keeps_self.
  - destruct m; try discriminate. simpl. rewrite connect_eq. cbv zeta.
    destruct (Client_new R (calls hp) (space_url (self hp))) as [[msg|msg]|h]; simpl.
    + now left.
    + now left.
    + right. split; [reflexivity|]. now exists h.
Qed.

(** X9.  A client that holds a handle holds one for ever: no sequence of
    calls, failing or not, takes it back to a client without a handle. *)
Theorem handle_is_never_dropped (ms : list (method image)) hp h :
  client (self hp) = Some h ->
  exists h', client (self (run_methods json_loads format_object R ms hp)) = Some h'.
Proof.
  revert hp h. induction ms as [|m ms IH]; intros hp h Hc; [now exists h|].
  simpl.
  destruct (is_analysis m) eqn:Hm.
  - apply (IH _ h). now rewrite analysis_keeps_self.
  - destruct m; try discriminate. simpl.
    pose proof (connect_eq R hp) as He. cbv zeta in He.
    destruct (Client_new R (calls hp) (space_url (self hp))) as [[msg|msg]|h'];
      rewrite He; simpl.
    + now apply (IH _ h).
    + now apply (IH _ h).
    + now apply (IH _ h').
Qed.

(** X10.  In every heap a program can reach, the status is one of the three
    the class writes; with the status Connected the client holds a handle,
    and with the status Disconnected it holds none. *)
Theorem status_and_handle_agree hp :
  reachable json_loads format_object R hp ->
  match ConnectionState_of (connection_status (self hp)) with
  | Some Disconnected => client (self hp) = None
  | Some Connected => exists h, client (self hp) = Some h
  | Some Failed => True
  | None => False
  end.
Proof.
  induction 1 as [url|hp m Hreach IH].
  - reflexivity.
  - destruct (is_analysis m) eqn:Hm.
    + now rewrite analysis_keeps_self.
    + destruct m; try discriminate. simpl. rewrite connect_eq. cbv zeta.
      destruct (Client_new R (calls hp) (space_url (self hp))) as [[msg|msg]|h]; simpl.
      * exact I.
      * exact IH.
      * now exists h.
Qed.

(** X11.  After a [connect()] whose handshake succeeds, from whatever state
    and whatever handle the client had, the client is connected with the new
    handle, and [analyze_image] on an image sends its request with that
    handle, right after the handshake. *)
Theorem connect_then_analyze hp h i :
  Client_new R (calls hp) (space_url (self hp)) = inr h ->
  let hp1 := snd (connect R hp) in
  fst (connect R hp)
  = Returned ("✅ Successfully connected to " ++ space_url (self hp), "success")
  /\ connected (self hp1) h
  /\ calls (snd (analyze_image json_loads R (Some i) hp1))
     = (calls hp ++ [ReqClient (space_url (self hp)); ReqPredict h i "/analyze_image"])%list.
Proof.
  intros Hnew hp1. subst hp1. rewrite connect_eq. cbv zeta. rewrite Hnew. simpl.
  split; [reflexivity|]. split; [split; reflexivity|].
  rewrite analyze_image_eq. simpl. now rewrite <- app_assoc.
Qed.
End Lifecycle.

(** ** The callers of the client *)

Section CallersProperties.
Context {handle image : Type}.
Variable json_loads : string -> exn + pyvalue.
Variable json_dumps : pyvalue -> exn + string.
Variable format_object : pyvalue -> string.
Variable R : remote handle image.
Implicit Types (hp : heap handle image) (h : handle) (i : image).

Lemma connect_to_server_eq hp :
  connect_to_server R hp =
  match connect R hp with
  | (Returned (status, status_type), hp') =>
      if status_type =? "success"
      then (Returned (status, mk_update (Some "primary") None, mk_update None (Some true)),
            hp')
      else (Returned (status, mk_update (Some "stop") None, mk_update None (Some false)),
            hp')
  | (Raised e, hp') => (Raised e, hp')
  end.
Proof.
  unfold connect_to_server, bind.
  destruct (connect R hp) as [[[status status_type]|e] hp']; [|reflexivity].
  destruct (status_type =? "success"); reflexivity.
Qed.

(** X12.  When [connect_to_server] returns, it shows the analysis panel
    exactly when the client is then in the Connected state, and the button is
    primary in that case and stop in the other. *)
Theorem panel_shown_iff_connected hp (status : string) (button panel : gr_update) :
  fst (connect_to_server R hp) = Returned (status, button, panel) ->
  let c := self (snd (connect_to_server R hp)) in
  (visible panel = Some true /\ variant button = Some "primary"
   /\ ConnectionState_of (connection_status c) = Some Connected)
  \/ (visible panel = Some false /\ variant button = Some "stop"
      /\ ConnectionState_of (connection_status c) = Some Failed).
Proof.
  rewrite connect_to_server_eq, connect_eq. cbv zeta.
  destruct (Client_new R (calls hp) (space_url (self hp))) as [[msg|msg]|h]; simpl.
  - intros [= <- <- <-]. right. repeat split.
  - discriminate.
  - intros [= <- <- <-]. left. repeat split.
Qed.

Lemma parsed_returns (prefix : string) (log : list (request handle image)) h i
    (api_name : string) :
  raises_Exceptions_only json_loads R ->
  exists v, parsed json_loads prefix (Client_predict R log h i api_name) = Returned v.
Proof.
  intros (_ & Hpredict & Hloads). unfold parsed.
  pose proof (Hpredict log h i api_name) as Hp.
  destruct (Client_predict R log h i api_name) as [[msg|msg]|v].
  - now eexists.
  - now contradiction (Hp msg).
  - destruct v; try (now eexists).
    pose proof (Hloads s) as Hl.
    destruct (json_loads s) as [[msg|msg]|v]; try (now eexists).
    now contradiction (Hl msg).
Qed.

Lemma labelled_returns (prefix : string) (log : list (request handle image)) h i
    (api_name : string) :
  raises_Exceptions_only json_loads R ->
  exists t, labelled format_object prefix (Client_predict R log h i api_name) = Returned t.
Proof.
  intros (_ & Hpredict & _). unfold labelled.
  pose proof (Hpredict log h i api_name) as Hp.
  destruct (Client_predict R log h i api_name) as [[msg|msg]|v]; try (now eexists).
  now contradiction (Hp msg).
Qed.

Lemma show_keeps_heap (v : pyvalue) hp :
  snd (show json_dumps format_object v hp) = hp.
Proof.
  unfold show. destruct (isinstance_dict v); [|reflexivity].
  unfold lift. destruct (json_dumps v); reflexivity.
Qed.

(** X13.  Without an image, or on a client that holds no handle,
    [run_comprehensive_analysis] sends nothing and leaves the heap as it
    was; without an image it returns the request to upload one and three
    empty texts. *)
Theorem comprehensive_analysis_sends_nothing hp (img : option image) :
  img = None \/ client (self hp) = None ->
  snd (run_comprehensive_analysis json_loads json_dumps format_object R img hp) = hp
  /\ (img = None ->
      fst (run_comprehensive_analysis json_loads json_dumps format_object R img hp)
      = Returned ("❌ Please upload an image first", "", "", "")).
Proof.
  intros Hcase. split.
  - destruct img as [i|]; [|reflexivity].
    destruct Hcase as [Hi|Hc]; [discriminate|].
    unfold run_comprehensive_analysis, bind.
    rewrite analyze_image_eq, Hc. simpl.
    rewrite get_orientation_eq, Hc. simpl.
    rewrite analyze_colors_eq, Hc. simpl.
    rewrite extract_text_info_eq, Hc. simpl.
    pose proof (show_keeps_heap
                  (error_dict "Not connected to MCP server. Please connect first.") hp) as H1.
    destruct (show json_dumps format_object
                (error_dict "Not connected to MCP server. Please connect first.") hp)
      as [[a|e] hp1]; simpl in H1; subst hp1; [|reflexivity].
    pose proof (show_keeps_heap (error_dict "Not connected to MCP server") hp) as H2.
    destruct (show json_dumps format_object (error_dict "Not connected to MCP server") hp)
      as [[t|e] hp2]; simpl in H2; subst hp2; reflexivity.
  - intros ->. reflexivity.
Qed.

(** X14.  On a client that holds a handle and with an image, when the remote
    and the decoder raise instances of [Exception] only,
    [run_comprehensive_analysis] sends four requests, in the order full
    analysis, orientation, colours, text information, all with the client's
    handle and the image, and leaves the client object as it was. *)
Theorem comprehensive_analysis_sends_four hp h i :
  client (self hp) = Some h ->
  raises_Exceptions_only json_loads R ->
  let hp' :=
    snd (run_comprehensive_analysis json_loads json_dumps format_object R (Some i) hp) in
  calls hp'
  = (calls hp ++ [ReqPredict h i "/analyze_image";
                  ReqPredict h i "/get_image_orientation";
                  ReqPredict h i "/count_colors";
                  ReqPredict h i "/extract_text_info"])%list
  /\ self hp' = self hp.
Proof.
  intros Hc Hsafe hp'. subst hp'.
  unfold run_comprehensive_analysis, bind.
  rewrite analyze_image_eq, Hc.
  destruct (parsed_returns "Analysis failed: " (calls hp) h i "/analyze_image" Hsafe)
    as [analysis ->].
  set (hp1 := sent hp (ReqPredict h i "/analyze_image")).
  assert (Hc1 : client (self hp1) = Some h) by exact Hc.
  rewrite get_orientation_eq, Hc1.
  destruct (labelled_returns "📐 Orientation: " (calls hp1) h i "/get_image_orientation"
              Hsafe) as [orientation ->].
  set (hp2 := sent hp1 (ReqPredict h i "/get_image_orientation")).
  assert (Hc2 : client (self hp2) = Some h) by exact Hc.
  rewrite analyze_colors_eq, Hc2.
  destruct (labelled_returns ("🎨 Color Analysis:" ++ String "010" "") (calls hp2) h i
              "/count_colors" Hsafe) as [colors ->].
  set (hp3 := sent hp2 (ReqPredict h i "/count_colors")).
  assert (Hc3 : client (self hp3) = Some h) by exact Hc.
  rewrite extract_text_info_eq, Hc3.
  destruct (parsed_returns "Text analysis failed: " (calls hp3) h i "/extract_text_info"
              Hsafe) as [text_info ->].
  set (hp4 := sent hp3 (ReqPredict h i "/extract_text_info")).
  assert (Hfinal : calls hp4
                   = (calls hp ++ [ReqPredict h i "/analyze_image";
                                   ReqPredict h i "/get_image_orientation";
                                   ReqPredict h i "/count_colors";
                                   ReqPredict h i "/extract_text_info"])%list
                   /\ self hp4 = self hp).
  { split; [|reflexivity]. subst hp4 hp3 hp2 hp1. unfold sent. simpl.
    now rewrite <- !app_assoc. }
  pose proof (show_keeps_heap analysis hp4) as H1.
  destruct (show json_dumps format_object analysis hp4) as [[a|e] hq1];
    simpl in H1; subst hq1; [|exact Hfinal].
  pose proof (show_keeps_heap text_info hp4) as H2.
  destruct (show json_dumps format_object text_info hp4) as [[t|e] hq2];
    simpl in H2; subst hq2; exact Hfinal.
Qed.
End CallersProperties.

(** * The sample images *)

Section Painting.
Import PIL.
Variable p : nat -> nat -> bool.
Variable f : nat -> nat -> rgb.

(** The inner loop, on the column [i]: rows [start] to [start + count - 1]
    are painted where [p] holds, within the image. *)
Lemma column_painted (i : nat) :
  forall count start img,
    i < fst (size img) -> start + count <= snd (size img) ->
    exists img',
      for_range_from start count
        (fun j img => if p i j then setitem img i j (f i j) else inr img) img = inr img'
      /\ mode img' = mode img
      /\ size img' = size img
      /\ forall x y,
           getpixel img' x y =
           if (x =? i)%nat && (start <=? y)%nat && (y <? start + count)%nat && p i y
           then f i y else getpixel img x y.
Proof.
  induction count as [|count IH]; intros start img Hi Hj.
  - exists img. repeat split. intros x y.
    destruct (x =? i)%nat, (start <=? y)%nat eqn:Hs; simpl; try reflexivity.
    apply Nat.leb_le in Hs.
    destruct (Nat.ltb_spec y (start + 0)); [lia | reflexivity].
  - cbn [for_range_from].
    assert (Hstep : exists img1,
               (if p i start then setitem img i start (f i start) else inr img) = inr img1
               /\ mode img1 = mode img /\ size img1 = size img
               /\ forall x y, getpixel img1 x y =
                              if (x =? i)%nat && (y =? start)%nat && p i start
                              then f i start else getpixel img x y).
    { destruct (p i start).
      - unfold setitem.
        destruct (Nat.ltb_spec i (fst (size img))); [|lia].
        destruct (Nat.ltb_spec start (snd (size img))); [|lia].
        simpl. eexists. repeat split. intros x y. simpl.
        now rewrite andb_true_r.
      - exists img. repeat split. intros x y. now rewrite andb_false_r. }
    destruct Hstep as (img1 & -> & Hm1 & Hs1 & Hp1).
    destruct (IH (S start) img1) as (img' & Hrun & Hm & Hs & Hp);
      [now rewrite Hs1 | rewrite Hs1; lia |].
    exists img'. split; [exact Hrun|]. split; [congruence|]. split; [congruence|].
    intros x y. rewrite Hp, Hp1.
    destruct (Nat.eqb_spec x i) as [->|Hx]; cbn [andb]; [|reflexivity].
    destruct (Nat.leb_spec (S start) y), (Nat.ltb_spec y (S start + count)),
      (Nat.leb_spec start y), (Nat.ltb_spec y (start + S count)),
      (Nat.eqb_spec y start); simpl; try lia; try reflexivity.
    subst y. reflexivity.
Qed.

(** The two loops: columns [start] to [start + count - 1], rows 0 to
    [h - 1]. *)
Lemma image_painted (h : nat) :
  forall count start img,
    start + count <= fst (size img) -> h <= snd (size img) ->
    exists img',
      for_range_from start count
        (fun i img =>
           for_range h (fun j img => if p i j then setitem img i j (f i j) else inr img)
             img) img = inr img'
      /\ mode img' = mode img
      /\ size img' = size img
      /\ forall x y,
           getpixel img' x y =
           if (start <=? x)%nat && (x <? start + count)%nat && (y <? h)%nat && p x y
           then f x y else getpixel img x y.
Proof.
  induction count as [|count IH]; intros start img Hi Hj.
  - exists img. repeat split. intros x y.
    destruct (Nat.leb_spec start x), (Nat.ltb_spec x (start + 0)); simpl;
      try lia; reflexivity.
  - cbn [for_range_from]. unfold for_range at 1.
    destruct (column_painted start h 0 img) as (img1 & -> & Hm1 & Hs1 & Hp1);
      [lia | lia |].
    destruct (IH (S start) img1) as (img' & Hrun & Hm & Hs & Hp);
      [rewrite Hs1; lia | now rewrite Hs1 |].
    exists img'. split; [exact Hrun|]. split; [congruence|]. split; [congruence|].
    intros x y. rewrite Hp, Hp1.
    destruct (Nat.leb_spec (S start) x), (Nat.ltb_spec x (S start + count)),
      (Nat.leb_spec start x), (Nat.ltb_spec x (start + S count)),
      (Nat.eqb_spec x start), (Nat.ltb_spec y (0 + h)), (Nat.ltb_spec y h),
      (Nat.leb_spec 0 y); simpl; try lia; try reflexivity.
    all: subst x; reflexivity.
Qed.
End Painting.

Lemma gradient_painted (img3 : PIL.Image) :
  200 <= fst (PIL.size img3) -> 400 <= snd (PIL.size img3) ->
  exists img,
    gradient img3 = inr img
    /\ PIL.mode img = PIL.mode img3
    /\ PIL.size img = PIL.size img3
    /\ forall x y,
         PIL.getpixel img x y =
         if (x <? 200)%nat && (y <? 400)%nat
         then (x mod 256, y mod 256, (x + y) mod 256) else PIL.getpixel img3 x y.
Proof.
  intros Hw Hh.
  destruct (image_painted (fun _ _ => true)
              (fun i j => (i mod 256, j mod 256, (i + j) mod 256)) 400 200 0 img3)
    as (img & Hrun & Hm & Hs & Hp); [exact Hw | exact Hh |].
  exists img. split; [exact Hrun|]. split; [exact Hm|]. split; [exact Hs|].
  intros x y. rewrite Hp. now rewrite andb_true_r.
Qed.

Lemma checkerboard_painted (img4 : PIL.Image) :
  100 <= fst (PIL.size img4) -> 100 <= snd (PIL.size img4) ->
  exists img,
    checkerboard img4 = inr img
    /\ PIL.mode img = PIL.mode img4
    /\ PIL.size img = PIL.size img4
    /\ forall x y,
         PIL.getpixel img x y =
         if (x <? 100)%nat && (y <? 100)%nat && negb ((x / 10 + y / 10) mod 2 =? 0)%nat
         then (0, 0, 0) else PIL.getpixel img4 x y.
Proof.
  intros Hw Hh.
  destruct (image_painted (fun i j => negb ((i / 10 + j / 10) mod 2 =? 0)%nat)
              (fun _ _ => (0, 0, 0)) 100 100 0 img4)
    as (img & Hrun & Hm & Hs & Hp); [exact Hw | exact Hh |].
  exists img. split; [exact Hrun|]. split; [exact Hm|]. split; [exact Hs|].
  intros x y. now rewrite Hp.
Qed.

Lemma four_samples {V : Type} (a b c d : V) :
  dict_set
    (dict_set
       (dict_set (dict_set [] "Red Rectangle (400x300)" a) "Blue Square (300x300)" b)
       "Colorful Gradient (200x400)" c)
    "Checkerboard Pattern (100x100)" d
  = [("Red Rectangle (400x300)", a); ("Blue Square (300x300)", b);
     ("Colorful Gradient (200x400)", c); ("Checkerboard Pattern (100x100)", d)].
Proof. reflexivity. Qed.

(** What [create_sample_images] builds. *)
Lemma create_sample_images_eq :
  exists img3 img4,
    create_sample_images
    = inr [("Red Rectangle (400x300)", PIL.new "RGB" (400, 300) PIL.red);
           ("Blue Square (300x300)", PIL.new "RGB" (300, 300) PIL.blue);
           ("Colorful Gradient (200x400)", img3);
           ("Checkerboard Pattern (100x100)", img4)]
    /\ (PIL.mode img3 = "RGB" /\ PIL.size img3 = (200, 400)
        /\ forall x y, x < 200 -> y < 400 ->
             PIL.getpixel img3 x y = (x mod 256, y mod 256, (x + y) mod 256))
    /\ (PIL.mode img4 = "RGB" /\ PIL.size img4 = (100, 100)
        /\ forall x y, x < 100 -> y < 100 ->
             PIL.getpixel img4 x y =
             if ((x / 10 + y / 10) mod 2 =? 0)%nat then PIL.white else PIL.black).
Proof.
  destruct (gradient_painted (PIL.new "RGB" (200, 400) PIL.black))
    as (img3 & Hg & Hm3 & Hs3 & Hp3); [apply Nat.le_refl | apply Nat.le_refl |].
  destruct (checkerboard_painted (PIL.new "RGB" (100, 100) PIL.white))
    as (img4 & Hc & Hm4 & Hs4 & Hp4); [apply Nat.le_refl | apply Nat.le_refl |].
  exists img3, img4. split; [|split].
  - unfold create_sample_images. cbv zeta. rewrite Hg, Hc. now rewrite four_samples.
  - split; [exact Hm3|]. split; [exact Hs3|].
    intros x y Hx Hy. rewrite Hp3.
    destruct (Nat.ltb_spec x 200), (Nat.ltb_spec y 400); try lia. reflexivity.
  - split; [exact Hm4|]. split; [exact Hs4|].
    intros x y Hx Hy. rewrite Hp4.
    destruct (Nat.ltb_spec x 100), (Nat.ltb_spec y 100); try lia. cbn [andb].
    destruct ((x / 10 + y / 10) mod 2 =? 0)%nat; reflexivity.
Qed.

Lemma dict_get_keys {V : Type} (d : list (string * V)) (key : string) :
  In key (keys d) <-> exists v, dict_get d key = Some v.
Proof.
  induction d as [|[k v] d IH]; simpl.
  - split; [contradiction | intros [v Hv]; discriminate].
  - destruct (String.eqb_spec k key) as [->|Hk].
    + split; [intros _; now exists v | now left].
    + rewrite <- IH. split; [intros [H|H]; [contradiction | exact H] | now right].
Qed.

(** X15.  [create_sample_images] returns (no pixel is written outside of an
    image) a dict of four RGB images, in the order red rectangle, blue
    square, gradient, checkerboard, each of the size its name gives; the
    first is red all over and the second blue. *)
Theorem sample_images_created :
  exists img1 img2 img3 img4,
    create_sample_images
    = inr [("Red Rectangle (400x300)", img1); ("Blue Square (300x300)", img2);
           ("Colorful Gradient (200x400)", img3);
           ("Checkerboard Pattern (100x100)", img4)]
    /\ map (fun img => (PIL.mode img, PIL.size img)) [img1; img2; img3; img4]
       = [("RGB", (400, 300)); ("RGB", (300, 300)); ("RGB", (200, 400));
          ("RGB", (100, 100))]
    /\ (forall x y, PIL.getpixel img1 x y = (255, 0, 0))
    /\ (forall x y, PIL.getpixel img2 x y = (0, 0, 255)).
Proof.
  destruct create_sample_images_eq as (img3 & img4 & Heq & (Hm3 & Hs3 & _) & (Hm4 & Hs4 & _)).
  exists (PIL.new "RGB" (400, 300) PIL.red), (PIL.new "RGB" (300, 300) PIL.blue), img3, img4.
  split; [exact Heq|]. split; [|split; reflexivity].
  cbn [map]. rewrite Hm3, Hs3, Hm4, Hs4. reflexivity.
Qed.

(** X16.  The gradient sample is the 200 by 400 image whose pixel at (x, y)
    is (x mod 256, y mod 256, (x + y) mod 256); its red channel is x itself,
    and every channel is below 256. *)
Theorem gradient_sample_pixels :
  exists img,
    load_sample_image "Colorful Gradient (200x400)" = inr (Some img)
    /\ PIL.size img = (200, 400)
    /\ forall x y, x < 200 -> y < 400 ->
         PIL.getpixel img x y = (x, y mod 256, (x + y) mod 256)
         /\ y mod 256 < 256 /\ (x + y) mod 256 < 256.
Proof.
  destruct create_sample_images_eq as (img3 & img4 & Heq & (_ & Hs3 & Hp3) & _).
  exists img3. split; [|split; [exact Hs3|]].
  - unfold load_sample_image. rewrite Heq. reflexivity.
  - intros x y Hx Hy. rewrite (Hp3 x y Hx Hy).
    rewrite (Nat.mod_small x 256) by lia.
    split; [reflexivity|]. split; apply Nat.mod_upper_bound; discriminate.
Qed.

(** X17.  The checkerboard sample is the 100 by 100 image made of squares
    of side 10: the pixel at (x, y) is white when x / 10 + y / 10 is even and
    black when it is odd, so that a pixel and the one 10 to its right, or 10
    below it, differ. *)
Theorem checkerboard_sample_pixels :
  exists img,
    load_sample_image "Checkerboard Pattern (100x100)" = inr (Some img)
    /\ PIL.size img = (100, 100)
    /\ (forall x y, x < 100 -> y < 100 ->
          PIL.getpixel img x y =
          if Nat.even (x / 10 + y / 10) then (255, 255, 255) else (0, 0, 0))
    /\ (forall x y, x + 10 < 100 -> y < 100 ->
          PIL.getpixel img (x + 10) y <> PIL.getpixel img x y)
    /\ (forall x y, x < 100 -> y + 10 < 100 ->
          PIL.getpixel img x (y + 10) <> PIL.getpixel img x y).
Proof.
  destruct create_sample_images_eq as (img3 & img4 & Heq & _ & (_ & Hs4 & Hp4)).
  assert (Hpix : forall x y, x < 100 -> y < 100 ->
             PIL.getpixel img4 x y =
             if Nat.even (x / 10 + y / 10) then (255, 255, 255) else (0, 0, 0)).
  { intros x y Hx Hy. rewrite (Hp4 x y Hx Hy).
    set (n := x / 10 + y / 10).
    destruct (Nat.even n) eqn:He.
    - apply Nat.even_spec in He. destruct He as [k ->].
      replace (2 * k) with (k * 2) by lia. rewrite Nat.Div0.mod_mul. reflexivity.
    - assert (Ho : Nat.odd n = true) by (unfold Nat.odd; now rewrite He).
      apply Nat.odd_spec in Ho. destruct Ho as [k ->].
      replace (2 * k + 1) with (1 + k * 2) by lia. rewrite Nat.Div0.mod_add.
      reflexivity. }
  assert (Hflip : forall n, Nat.even (n + 1) = negb (Nat.even n)).
  { intros n. replace (n + 1) with (S n) by lia.
    rewrite Nat.even_succ. unfold Nat.odd. reflexivity. }
  exists img4. split; [|split; [exact Hs4|split; [exact Hpix|split]]].
  - unfold load_sample_image. rewrite Heq. reflexivity.
  - intros x y Hx Hy. rewrite !Hpix by lia.
    replace ((x + 10) / 10) with (x / 10 + 1)
      by (replace (x + 10) with (x + 1 * 10) by lia; now rewrite Nat.div_add).
    replace (x / 10 + 1 + y / 10) with (x / 10 + y / 10 + 1) by lia.
    rewrite Hflip. destruct (Nat.even (x / 10 + y / 10)); discriminate.
  - intros x y Hx Hy. rewrite !Hpix by lia.
    replace ((y + 10) / 10) with (y / 10 + 1)
      by (replace (y + 10) with (y + 1 * 10) by lia; now rewrite Nat.div_add).
    replace (x / 10 + (y / 10 + 1)) with (x / 10 + y / 10 + 1) by lia.
    rewrite Hflip. destruct (Nat.even (x / 10 + y / 10)); discriminate.
Qed.

(** X18.  [load_sample_image] returns an image for each of the four names
    of [create_sample_images], which are the choices of the drop-down list,
    and [None] for every other name; it does not raise. *)
Theorem load_sample_image_by_name (sample_name : string) :
  exists samples,
    create_sample_images = inr samples
    /\ keys samples
       = ["Red Rectangle (400x300)"; "Blue Square (300x300)";
          "Colorful Gradient (200x400)"; "Checkerboard Pattern (100x100)"]
    /\ (In sample_name (keys samples) ->
        exists img, load_sample_image sample_name = inr (Some img))
    /\ (~ In sample_name (keys samples) -> load_sample_image sample_name = inr None).
Proof.
  destruct create_sample_images_eq as (img3 & img4 & Heq & _).
  eexists. split; [exact Heq|]. split; [reflexivity|].
  unfold load_sample_image. rewrite Heq. split.
  - intros Hin. apply dict_get_keys in Hin. destruct Hin as [img Himg].
    exists img. now rewrite Himg.
  - intros Hout.
    match goal with
    | |- inr (dict_get ?d _) = _ => destruct (dict_get d sample_name) as [img|] eqn:Hg
    end; [|reflexivity].
    exfalso. apply Hout. apply dict_get_keys. now exists img.
Qed.

(** * Runs of the further properties on the sample remotes *)

Lemma sample_remotes_raise_Exceptions_only (answer : pyvalue) :
  raises_Exceptions_only Json.loads (Sample.answering (inr answer)).
Proof.
  split; [|split].
  - intros log url msg H. discriminate H.
  - intros log h i api_name msg H. discriminate H.
  - intros s msg H. apply loads_raises_Exception in H. discriminate H.
Qed.

Lemma transport_failure_is_error_result_witness :
  let R := Demo.timing_out in
  let hp := Sample.online R in
  client (self hp) = Some 1
  /\ analyze_image Json.loads R (Some 0) hp =
       (Returned (error_dict "Analysis failed: timed out"),
        sent hp (ReqPredict 1 0 "/analyze_image")).
Proof.
  intros R hp. split; [reflexivity|].
  exact (proj1 (transport_failure_is_error_result Json.loads Sample.no_format R hp 1 0
                  "timed out" eq_refl) eq_refl).
Defined.

Lemma color_summary_is_headed_witness :
  let R := Sample.answering (inr (PStr "3 colors")) in
  let hp := Sample.online R in
  client (self hp) = Some 1
  /\ analyze_colors Sample.no_format R (Some 0) hp =
       (Returned ("🎨 Color Analysis:" ++ String "010" "3 colors"),
        sent hp (ReqPredict 1 0 "/count_colors")).
Proof.
  intros R hp. split; [reflexivity|].
  exact (color_summary_is_headed Sample.no_format R hp 1 0 "3 colors" eq_refl eq_refl).
Defined.

Lemma methods_raise_no_Exception_witness :
  let R := Demo.interrupted in
  let hp := Sample.online R in
  fst (invoke Json.loads Sample.no_format R (GetOrientation (Some 0)) hp)
  = Raised (BaseException "KeyboardInterrupt")
  /\ exists msg, BaseException "KeyboardInterrupt" = BaseException msg.
Proof.
  intros R hp. split; [reflexivity|].
  exact (methods_raise_no_Exception Json.loads Sample.no_format R
           (GetOrientation (Some 0)) hp _ eq_refl).
Defined.

Lemma methods_return_witness :
  let R := Sample.answering (inr (PStr size_document)) in
  raises_Exceptions_only Json.loads R
  /\ exists a, fst (invoke Json.loads Sample.no_format R (AnalyzeImage (Some 0))
                      (Sample.online R)) = Returned a.
Proof.
  intros R. split; [apply sample_remotes_raise_Exceptions_only|].
  exact (methods_return Json.loads Sample.no_format R (AnalyzeImage (Some 0))
           (Sample.online R) (sample_remotes_raise_Exceptions_only _)).
Defined.

Lemma handle_is_never_dropped_witness :
  let R := Sample.going_down in
  let hp := Sample.online R in
  client (self hp) = Some 1
  /\ exists h',
       client (self (run_methods Json.loads Sample.no_format R
                       [Connect; AnalyzeImage None; Connect] hp)) = Some h'.
Proof.
  intros R hp. split; [reflexivity|].
  exact (handle_is_never_dropped Json.loads Sample.no_format R
           [Connect; AnalyzeImage None; Connect] hp 1 eq_refl).
Defined.

Lemma status_and_handle_agree_witness :
  let R := Sample.answering (inr PNone) in
  reachable Json.loads Sample.no_format R (Sample.online R)
  /\ match ConnectionState_of (connection_status (self (Sample.online R))) with
     | Some Disconnected => client (self (Sample.online R)) = None
     | Some Connected => exists h, client (self (Sample.online R)) = Some h
     | Some Failed => True
     | None => False
     end.
Proof.
  intros R.
  assert (Hr : reachable Json.loads Sample.no_format R (Sample.online R)).
  { exact (reach_call Json.loads Sample.no_format R _ Connect
             (reach_new Json.loads Sample.no_format R (Sample.endpoint ++ "/"))). }
  split; [exact Hr|].
  exact (status_and_handle_agree Json.loads Sample.no_format R (Sample.online R) Hr).
Defined.

Lemma connect_then_analyze_witness :
  let R := Demo.counting in
  let hp := Sample.online R in
  client (self hp) = Some 0
  /\ Client_new R (calls hp) (space_url (self hp)) = inr 1
  /\ connected (self (snd (connect R hp))) 1.
Proof.
  intros R hp. split; [reflexivity|]. split; [reflexivity|].
  exact (proj1 (proj2 (connect_then_analyze Json.loads R hp 1 0 eq_refl))).
Defined.

Lemma panel_shown_iff_connected_witness :
  let R := Sample.unreachable in
  let shown := connect_to_server R Sample.fresh in
  fst shown
  = Returned ("❌ Failed to connect to https://chris4k-mcp-images.hf.space: Connection refused",
              mk_update (Some "stop") None, mk_update None (Some false))
  /\ ConnectionState_of (connection_status (self (snd shown))) = Some Failed.
Proof.
  intros R shown. split; [reflexivity|].
  destruct (panel_shown_iff_connected R Sample.fresh _ _ _ (eq_refl : fst shown = _))
    as [(Hv & _)|(_ & _ & Hs)]; [discriminate Hv | exact Hs].
Defined.

Lemma comprehensive_analysis_sends_nothing_witness :
  let R := Sample.unreachable in
  client (self Sample.fresh) = None
  /\ snd (run_comprehensive_analysis Json.loads Demo.no_dumps Sample.no_format R
            (Some 0) Sample.fresh) = Sample.fresh.
Proof.
  intros R. split; [reflexivity|].
  exact (proj1 (comprehensive_analysis_sends_nothing Json.loads Demo.no_dumps
                  Sample.no_format R Sample.fresh (Some 0) (or_intror eq_refl))).
Defined.

Lemma comprehensive_analysis_sends_four_witness :
  let R := Sample.answering (inr (PStr size_document)) in
  let hp := Sample.online R in
  client (self hp) = Some 1
  /\ raises_Exceptions_only Json.loads R
  /\ calls (snd (run_comprehensive_analysis Json.loads Demo.no_dumps Sample.no_format R
                   (Some 0) hp))
     = (calls hp ++ [ReqPredict 1 0 "/analyze_image";
                     ReqPredict 1 0 "/get_image_orientation";
                     ReqPredict 1 0 "/count_colors";
                     ReqPredict 1 0 "/extract_text_info"])%list.
Proof.
  intros R hp. split; [reflexivity|].
  split; [apply sample_remotes_raise_Exceptions_only|].
  exact (proj1 (comprehensive_analysis_sends_four Json.loads Demo.no_dumps Sample.no_format
                  R hp 1 0 eq_refl (sample_remotes_raise_Exceptions_only _))).
Defined.
